(** * ve.ce.MWTransclusionNode: a shallow embedding and its properties

    The development follows
    [extensions/VisualEditor/modules/ve-mw/ce/nodes/ve.ce.MWTransclusionNode.js].

    - JavaScript strings are Rocq strings, one [ascii] per code unit.
    - DOM nodes are finite trees (elements with attributes and children,
      text nodes, comment nodes).
    - A JavaScript exception is an explicit [Throw] result.
    - [JSON.parse], used on the [data-mw] attribute, is a total function
      made of a lexer automaton and a pushdown parser.
    - Services of the host that the file only calls ([mw.Title],
      [ve.msg], [mw.libs.ve.stripParsoidFallbackIds], [$.parseHTML], the
      whitespace list of the converter, ...) are Section variables.
    - For what the node does to its model, the model object and
      [this.model] live in a heap and the operations are programs on it. *)

From Stdlib Require Import List String Ascii ZArith Bool Lia.
Import ListNotations.

Set Warnings "-register-all".

Local Open Scope string_scope.
Local Open Scope list_scope.

(** ** Results of JavaScript computations *)

Inductive Exception : Type :=
| SyntaxError
| TypeError.

Inductive Result (A : Type) : Type :=
| Ok (a : A)
| Throw (e : Exception).

Arguments Ok {A} a.
Arguments Throw {A} e.

Definition bind {A B : Type} (r : Result A) (k : A -> Result B) : Result B :=
  match r with
  | Ok a => k a
  | Throw e => Throw e
  end.

Notation "x <- r ;; k" := (bind r (fun x => k))
  (at level 61, r at next level, right associativity).

(** [Array.prototype.filter] with a callback that may throw: elements are
    visited from index 0 upwards and the first exception aborts the call. *)
Fixpoint filterM {A : Type} (f : A -> Result bool) (l : list A) : Result (list A) :=
  match l with
  | [] => Ok []
  | a :: r =>
      b <- f a ;;
      r' <- filterM f r ;;
      Ok (if b then a :: r' else r')
  end.

(** [Array.prototype.map] with a callback that may throw. *)
Fixpoint mapM {A B : Type} (f : A -> Result B) (l : list A) : Result (list B) :=
  match l with
  | [] => Ok []
  | a :: r =>
      b <- f a ;;
      r' <- mapM f r ;;
      Ok (b :: r')
  end.

(** ** JSON.parse *)

Module Json.

(** A JSON string is kept as its code units, so that a key written with
    a unicode escape is the same key as the one written with the letter. *)
Definition jstring : Type := list N.

(** The quotation mark, code unit 34. *)
Definition dquote : ascii := ascii_of_nat 34.

(** [quoted s] is [s] between quotation marks. *)
Definition quoted (s : string) : string :=
  String dquote (s ++ String dquote EmptyString).

Definition jstring_of (s : string) : jstring :=
  map N_of_ascii (list_ascii_of_string s).

Fixpoint jstring_eqb (a b : jstring) : bool :=
  match a, b with
  | [], [] => true
  | x :: a', y :: b' => N.eqb x y && jstring_eqb a' b'
  | _, _ => false
  end.

(** A number literal is kept as [mantissa * 10 ^ exponent]. *)
Inductive value : Type :=
| JNull
| JBool (b : bool)
| JNumber (mantissa exponent : Z)
| JString (s : jstring)
| JArray (items : list value)
| JObject (members : list (jstring * value)).

Inductive token : Type :=
| TLBrace | TRBrace | TLBracket | TRBracket | TColon | TComma
| TLit (v : value).

(** *** Lexer *)

Inductive numphase : Type :=
| NMinus     (* after '-': a digit must follow *)
| NZero      (* after a leading 0 *)
| NInt       (* inside the integer digits *)
| NDot       (* after '.': a digit must follow *)
| NFrac      (* inside the fraction digits *)
| NE         (* after 'e' or 'E': a sign or a digit must follow *)
| NESign     (* after the exponent sign: a digit must follow *)
| NExp.      (* inside the exponent digits *)

Record numacc : Type := mkNum {
  n_neg : bool;      (* a leading '-' was read *)
  n_digits : Z;      (* integer and fraction digits read as one integer *)
  n_frac : Z;        (* how many of them are fraction digits *)
  n_eneg : bool;     (* the exponent is negative *)
  n_exp : Z          (* exponent digits *)
}.

Definition num_value (a : numacc) : value :=
  JNumber (if n_neg a then - n_digits a else n_digits a)
          ((if n_eneg a then - n_exp a else n_exp a) - n_frac a).

Inductive lstate : Type :=
| LIdle
| LWord (rest : list ascii) (v : value)
| LStr (acc : list N)
| LEsc (acc : list N)
| LUni (acc : list N) (more : nat) (code : N)
| LNum (ph : numphase) (a : numacc).

Definition digit_of (c : ascii) : option Z :=
  let n := N_of_ascii c in
  if (48 <=? n)%N && (n <=? 57)%N then Some (Z.of_N n - 48)%Z else None.

Definition hex_of (c : ascii) : option N :=
  let n := N_of_ascii c in
  if (48 <=? n)%N && (n <=? 57)%N then Some (n - 48)%N
  else if (65 <=? n)%N && (n <=? 70)%N then Some (n - 55)%N
  else if (97 <=? n)%N && (n <=? 102)%N then Some (n - 87)%N
  else None.

Definition is_ws (c : ascii) : bool :=
  let n := N_of_ascii c in
  (n =? 32)%N || (n =? 9)%N || (n =? 10)%N || (n =? 13)%N.

Definition num_accepting (ph : numphase) : bool :=
  match ph with
  | NZero | NInt | NFrac | NExp => true
  | _ => false
  end.

(** One character read while no token is open. *)
Definition lex_idle (c : ascii) : option (lstate * list token) :=
  if is_ws c then Some (LIdle, [])
  else if Ascii.eqb c dquote then Some (LStr [], [])
  else match c with
  | "{"%char => Some (LIdle, [TLBrace])
  | "}"%char => Some (LIdle, [TRBrace])
  | "["%char => Some (LIdle, [TLBracket])
  | "]"%char => Some (LIdle, [TRBracket])
  | ":"%char => Some (LIdle, [TColon])
  | ","%char => Some (LIdle, [TComma])
  | "-"%char => Some (LNum NMinus (mkNum true 0 0 false 0), [])
  | "t"%char => Some (LWord (list_ascii_of_string "rue") (JBool true), [])
  | "f"%char => Some (LWord (list_ascii_of_string "alse") (JBool false), [])
  | "n"%char => Some (LWord (list_ascii_of_string "ull") JNull, [])
  | _ =>
      match digit_of c with
      | Some 0%Z => Some (LNum NZero (mkNum false 0 0 false 0), [])
      | Some d => Some (LNum NInt (mkNum false d 0 false 0), [])
      | None => None
      end
  end.

Definition push_digit (a : numacc) (d : Z) (frac : bool) : numacc :=
  mkNum (n_neg a) (10 * n_digits a + d)
        (if frac then n_frac a + 1 else n_frac a) (n_eneg a) (n_exp a).

Definition push_exp (a : numacc) (d : Z) : numacc :=
  mkNum (n_neg a) (n_digits a) (n_frac a) (n_eneg a) (10 * n_exp a + d).

Definition set_eneg (a : numacc) : numacc :=
  mkNum (n_neg a) (n_digits a) (n_frac a) true (n_exp a).

Definition is_e (c : ascii) : bool :=
  match c with "e"%char | "E"%char => true | _ => false end.

(** One character read inside a number; [None] when the character does
    not continue the number. *)
Definition lex_num (ph : numphase) (a : numacc) (c : ascii) : option lstate :=
  match ph, digit_of c with
  | NMinus, Some 0%Z => Some (LNum NZero a)
  | NMinus, Some d => Some (LNum NInt (push_digit a d false))
  | NInt, Some d => Some (LNum NInt (push_digit a d false))
  | NDot, Some d => Some (LNum NFrac (push_digit a d true))
  | NFrac, Some d => Some (LNum NFrac (push_digit a d true))
  | NE, Some d => Some (LNum NExp (push_exp a d))
  | NESign, Some d => Some (LNum NExp (push_exp a d))
  | NExp, Some d => Some (LNum NExp (push_exp a d))
  | NZero, Some _ => None
  | _, None =>
      match ph, c with
      | (NZero | NInt), "."%char => Some (LNum NDot a)
      | NE, "+"%char => Some (LNum NESign a)
      | NE, "-"%char => Some (LNum NESign (set_eneg a))
      | _, _ =>
          if is_e c then
            match ph with
            | NZero | NInt | NFrac => Some (LNum NE a)
            | _ => None
            end
          else None
      end
  end.

Definition lex_escape (acc : list N) (c : ascii) : option lstate :=
  if Ascii.eqb c dquote then Some (LStr (34%N :: acc))
  else match c with
  | "\"%char => Some (LStr (92%N :: acc))
  | "/"%char => Some (LStr (47%N :: acc))
  | "b"%char => Some (LStr (8%N :: acc))
  | "f"%char => Some (LStr (12%N :: acc))
  | "n"%char => Some (LStr (10%N :: acc))
  | "r"%char => Some (LStr (13%N :: acc))
  | "t"%char => Some (LStr (9%N :: acc))
  | "u"%char => Some (LUni acc 4 0%N)
  | _ => None
  end.

Definition lex_step (st : lstate) (c : ascii) : option (lstate * list token) :=
  match st with
  | LIdle => lex_idle c
  | LWord [] v => None
  | LWord [x] v =>
      if Ascii.eqb x c then Some (LIdle, [TLit v]) else None
  | LWord (x :: rest) v =>
      if Ascii.eqb x c then Some (LWord rest v, []) else None
  | LStr acc =>
      if Ascii.eqb c dquote then Some (LIdle, [TLit (JString (rev acc))])
      else if Ascii.eqb c "\"%char then Some (LEsc acc, [])
      else if (N_of_ascii c <? 32)%N then None
      else Some (LStr (N_of_ascii c :: acc), [])
  | LEsc acc =>
      match lex_escape acc c with
      | Some st' => Some (st', [])
      | None => None
      end
  | LUni acc more code =>
      match hex_of c, more with
      | Some h, 1%nat => Some (LStr ((16 * code + h)%N :: acc), [])
      | Some h, S more1 => Some (LUni acc more1 (16 * code + h)%N, [])
      | _, _ => None
      end
  | LNum ph a =>
      match lex_num ph a c with
      | Some st' => Some (st', [])
      | None =>
          if num_accepting ph then
            match lex_idle c with
            | Some (st', toks) => Some (st', TLit (num_value a) :: toks)
            | None => None
            end
          else None
      end
  end.

Fixpoint lex (st : lstate) (s : list ascii) : option (list token) :=
  match s with
  | [] =>
      match st with
      | LIdle => Some []
      | LNum ph a => if num_accepting ph then Some [TLit (num_value a)] else None
      | _ => None
      end
  | c :: r =>
      match lex_step st c with
      | Some (st', toks) =>
          match lex st' r with
          | Some toks' => Some (toks ++ toks')
          | None => None
          end
      | None => None
      end
  end.

(** *** Parser: a pushdown automaton over the tokens *)

Inductive frame : Type :=
| FArray (acc : list value)
| FObject (acc : list (jstring * value)) (key : jstring).

Inductive pstate : Type :=
| SValue (st : list frame)
| SArrayOpen (st : list frame)
| SObjectOpen (st : list frame)
| SAfterItem (acc : list value) (st : list frame)
| SAfterMember (acc : list (jstring * value)) (st : list frame)
| SKey (acc : list (jstring * value)) (st : list frame)
| SColon (acc : list (jstring * value)) (key : jstring) (st : list frame)
| SDone (v : value).

(** A value has been read in full under the stack [st]. *)
Definition complete (v : value) (st : list frame) : pstate :=
  match st with
  | [] => SDone v
  | FArray acc :: st' => SAfterItem (v :: acc) st'
  | FObject acc k :: st' => SAfterMember ((k, v) :: acc) st'
  end.

Definition parse_value_tok (t : token) (st : list frame) : option pstate :=
  match t with
  | TLit v => Some (complete v st)
  | TLBracket => Some (SArrayOpen st)
  | TLBrace => Some (SObjectOpen st)
  | _ => None
  end.

Definition parse_step (p : pstate) (t : token) : option pstate :=
  match p with
  | SValue st => parse_value_tok t st
  | SArrayOpen st =>
      match t with
      | TRBracket => Some (complete (JArray []) st)
      | _ => parse_value_tok t (FArray [] :: st)
      end
  | SObjectOpen st =>
      match t with
      | TRBrace => Some (complete (JObject []) st)
      | TLit (JString k) => Some (SColon [] k st)
      | _ => None
      end
  | SAfterItem acc st =>
      match t with
      | TComma => Some (SValue (FArray acc :: st))
      | TRBracket => Some (complete (JArray (rev acc)) st)
      | _ => None
      end
  | SAfterMember acc st =>
      match t with
      | TComma => Some (SKey acc st)
      | TRBrace => Some (complete (JObject (rev acc)) st)
      | _ => None
      end
  | SKey acc st =>
      match t with
      | TLit (JString k) => Some (SColon acc k st)
      | _ => None
      end
  | SColon acc k st =>
      match t with
      | TColon => Some (SValue (FObject acc k :: st))
      | _ => None
      end
  | SDone _ => None
  end.

Fixpoint parse_tokens (p : pstate) (ts : list token) : option value :=
  match ts with
  | [] => match p with SDone v => Some v | _ => None end
  | t :: r =>
      match parse_step p t with
      | Some p' => parse_tokens p' r
      | None => None
      end
  end.

(** [JSON.parse( text )]: the parsed value, or a [SyntaxError]. *)
Definition parse (text : string) : Result value :=
  match lex LIdle (list_ascii_of_string text) with
  | Some ts =>
      match parse_tokens (SValue []) ts with
      | Some v => Ok v
      | None => Throw SyntaxError
      end
  | None => Throw SyntaxError
  end.

(** *** Reading the parsed value *)

(** The own property [key] of an object parsed from JSON: of two members
    with the same key the later one wins. *)
Fixpoint lookup (key : jstring) (members : list (jstring * value)) : option value :=
  match members with
  | [] => None
  | (k, v) :: r =>
      match lookup key r with
      | Some v' => Some v'
      | None => if jstring_eqb k key then Some v else None
      end
  end.

(** [v.autoGenerated] for a value that is not null: [None] is
    [undefined].  Arrays, strings, numbers and booleans have no such
    property. *)
Definition autoGenerated (v : value) : option value :=
  match v with
  | JObject members => lookup (jstring_of "autoGenerated") members
  | _ => None
  end.

(** The number [m * 10 ^ e] read as a double is zero when [m] is zero or
    when the value is at most [2 ^ -1075], half of the least positive
    double. *)
Definition number_nonzero (m e : Z) : bool :=
  negb (m =? 0)%Z &&
  ((0 <=? e)%Z || (10 ^ (- e) <? Z.abs m * 2 ^ 1075)%Z).

(** ToBoolean. *)
Definition truthy (v : value) : bool :=
  match v with
  | JNull => false
  | JBool b => b
  | JNumber m e => number_nonzero m e
  | JString s => match s with [] => false | _ => true end
  | JArray _ | JObject _ => true
  end.

Definition truthy_opt (v : option value) : bool :=
  match v with
  | Some v' => truthy v'
  | None => false
  end.

End Json.


(** ** DOM nodes

    A node is a finite tree.  The name of an element is kept as the
    document has it; every place of the file that reads it lowers its case
    first ([nodeName.toLowerCase()], a type selector), so the upper case
    that [nodeName] gives for HTML elements makes no difference.  A method
    that changes a node in place is a function that returns the node after
    the call. *)

Inductive Node : Type :=
| Element (tagName : string) (attributes : list (string * string))
          (children : list Node)
| Text (data : string)
| Comment (data : string).

Definition ELEMENT_NODE : Z := 1.
Definition TEXT_NODE : Z := 3.
Definition COMMENT_NODE : Z := 8.

Definition nodeType (n : Node) : Z :=
  match n with
  | Element _ _ _ => ELEMENT_NODE
  | Text _ => TEXT_NODE
  | Comment _ => COMMENT_NODE
  end.

Definition nodeName (n : Node) : string :=
  match n with
  | Element t _ _ => t
  | Text _ => "#text"
  | Comment _ => "#comment"
  end.

Definition childNodes (n : Node) : list Node :=
  match n with
  | Element _ _ c => c
  | _ => []
  end.

Fixpoint lookupAttribute (name : string) (attrs : list (string * string)) : option string :=
  match attrs with
  | [] => None
  | (k, v) :: r => if String.eqb k name then Some v else lookupAttribute name r
  end.

(** [node.getAttribute( name )]; [None] is [null]. *)
Definition getAttribute (n : Node) (name : string) : option string :=
  match n with
  | Element _ attrs _ => lookupAttribute name attrs
  | _ => None
  end.

Definition hasAttribute (n : Node) (name : string) : bool :=
  match getAttribute n name with
  | Some _ => true
  | None => false
  end.

(** [String.prototype.toLowerCase] on code units below 256: the letters
    A-Z and the capital letters of Latin-1 move by 32. *)
Definition lowerChar (c : ascii) : ascii :=
  let n := N_of_ascii c in
  if ((65 <=? n) && (n <=? 90))%N then ascii_of_N (n + 32)
  else if ((192 <=? n) && (n <=? 222) && negb (n =? 215))%N then ascii_of_N (n + 32)
  else c.

Fixpoint toLowerCase (s : string) : string :=
  match s with
  | EmptyString => EmptyString
  | String c r => String (lowerChar c) (toLowerCase r)
  end.

(** ** filterRendering *)

Section FilterRendering.

(** The character class that [ve.dm.Converter.static.whitespaceList]
    spells inside the brackets of the regular expression. *)
Variable whitespaceClass : ascii -> bool.

(** [mw.libs.ve.stripParsoidFallbackIds( element )] works in place on an
    element: the tag stays, the attributes and the subtree after the call
    are what this function returns. *)
Variable stripParsoidFallbackIds :
  string -> list (string * string) -> list Node -> list (string * string) * list Node.

(** [whitespaceRegex.test( data )] for the anchored pattern [^[...]+$]. *)
Definition whitespaceRegex_test (data : string) : bool :=
  match list_ascii_of_string data with
  | [] => false
  | cs => forallb whitespaceClass cs
  end.

(** The callback of [contentNodes.filter]: [dataMw] is [false] when a
    guard fails ([None] here), else the parsed attribute.  ([JSON.parse]
    of [null] is [null]; behind [hasAttribute] it is not reached.) *)
Definition dataMw (node : Node) : Result (option Json.value) :=
  if (nodeType node =? ELEMENT_NODE)%Z then
    if hasAttribute node "data-mw" then
      match getAttribute node "data-mw" with
      | Some text => v <- Json.parse text ;; Ok (Some v)
      | None => Ok (Some Json.JNull)
      end
    else Ok None
  else Ok None.

Definition keepNode (node : Node) : Result bool :=
  d <- dataMw node ;;
  Ok match d with
     | None => true
     | Some v => negb (Json.truthy v) || negb (Json.truthy_opt (Json.autoGenerated v))
     end.

(** The callback of [contentNodes.forEach]. *)
Definition stripNode (node : Node) : Node :=
  match node with
  | Element t attrs c =>
      let (attrs', c') := stripParsoidFallbackIds t attrs c in
      Element t attrs' c'
  | _ => node
  end.

(** [isWhitespaceNode( node )]; [None] is the [undefined] read from an
    index outside the array. *)
Definition isWhitespaceNode (node : option Node) : bool :=
  match node with
  | Some (Text data) => whitespaceRegex_test data
  | _ => false
  end.

(** [while ( isWhitespaceNode( contentNodes[ 0 ] ) ) contentNodes.shift()] *)
Fixpoint shiftLoop (contentNodes : list Node) : list Node :=
  match contentNodes with
  | [] => []
  | n :: r => if isWhitespaceNode (Some n) then shiftLoop r else contentNodes
  end.

Definition lastNode (contentNodes : list Node) : option Node :=
  nth_error contentNodes (List.length contentNodes - 1).

(** [while ( isWhitespaceNode( contentNodes[ contentNodes.length - 1 ] ) )
    contentNodes.pop()]: each turn shortens the array, so [length
    contentNodes] turns are enough. *)
Fixpoint popLoop (turns : nat) (contentNodes : list Node) : list Node :=
  match turns with
  | O => contentNodes
  | S turns' =>
      if isWhitespaceNode (lastNode contentNodes)
      then popLoop turns' (removelast contentNodes)
      else contentNodes
  end.

Definition filterRendering (contentNodes : list Node) : Result (list Node) :=
  if (List.length contentNodes =? 0)%nat then Ok []
  else
    kept <- filterM keepNode contentNodes ;;
    let stripped := map stripNode kept in
    let shifted := shiftLoop stripped in
    let popped := popLoop (List.length shifted) shifted in
    match popped with
    | [single] =>
        if String.eqb (toLowerCase (nodeName single)) "p"
        then Ok (childNodes single)
        else Ok popped
    | _ => Ok popped
    end.

End FilterRendering.

(** ** The model read by the node *)

(** One entry of [model.getPartsList()]: a template part carries
    [templatePage] and [template], a raw wikitext part carries neither.
    [None] stands for a missing, [null] or [undefined] property. *)
Record Part : Type := mkPart {
  templatePage : option string;
  template : option string
}.

Record Model : Type := mkModel {
  getPartsList : list Part;
  getWikitext : string;
  getDocument : nat;                    (* the owning document *)
  getModelHtmlDocument : option nat     (* the HTML document, when there is one *)
}.

(** ToBoolean of a property that holds a string or is missing. *)
Definition truthyString (s : option string) : option string :=
  match s with
  | Some EmptyString => None
  | Some s' => Some s'
  | None => None
  end.

Definition nonEmpty (s : string) : bool :=
  match s with
  | EmptyString => false
  | _ => true
  end.

(** ** getDescription and getDescriptionDom *)

Section Description.

(** [mw.Title]: [newFromText] returns [null] for a text that is no
    title. *)
Variable Title : Type.
Variable newFromText : string -> option Title.
Variable getRelativeText : Title -> Z -> string.
Variable getUrl : Title -> string.

(** [mw.config.get( 'wgNamespaceIds' ).template] *)
Variable templateNamespace : Z.

(** [ve.msg( 'comma-separator' )] *)
Variable commaSeparator : string.

(** The callback of [map] in [getDescription]: calling
    [getRelativeText] on [null] is a [TypeError]. *)
Definition describePart (part : Part) : Result string :=
  match truthyString (templatePage part) with
  | Some page =>
      match newFromText page with
      | Some title => Ok (getRelativeText title templateNamespace)
      | None => Throw TypeError
      end
  | None =>
      match truthyString (template part) with
      | Some name => Ok name
      | None => Ok ""
      end
  end.

(** [Array.prototype.join]: the separator is written before every
    element but the one at index 0. *)
Fixpoint joinFrom (k : nat) (sep : string) (l : list string) (R : string) : string :=
  match l with
  | [] => R
  | x :: r => joinFrom (S k) sep r ((if (k =? 0)%nat then R else R ++ sep) ++ x)
  end.

Definition join (sep : string) (l : list string) : string :=
  joinFrom 0 sep l "".

Definition getDescription (model : Model) : Result string :=
  descs <- mapM describePart (getPartsList model) ;;
  Ok (join commaSeparator (filter nonEmpty descs)).

(** [document.createElement( 'a' )] with [textContent] and [href] set:
    an empty text leaves the link without a child. *)
Definition createLink (text href : string) : Node :=
  Element "a" [("href", href)]
          (if nonEmpty text then [Text text] else []).

(** The callback of [map] in [getDescriptionDom]; [None] is [null]. *)
Definition describePartDom (part : Part) : Result (option Node) :=
  match truthyString (templatePage part) with
  | Some page =>
      match newFromText page with
      | Some title =>
          Ok (Some (createLink (getRelativeText title templateNamespace)
                               (getUrl title)))
      | None => Throw TypeError
      end
  | None =>
      match truthyString (template part) with
      | Some name => Ok (Some (Text name))
      | None => Ok None
      end
  end.

(** [filter( function ( desc ) { return desc; } )]: a node is truthy,
    [null] is not. *)
Fixpoint filterNodes (l : list (option Node)) : list Node :=
  match l with
  | [] => []
  | Some n :: r => n :: filterNodes r
  | None :: r => filterNodes r
  end.

(** The [forEach] that fills the span, from index [i] on; [kids] are the
    children appended so far. *)
Fixpoint appendFrom (i : nat) (nodes : list Node) (kids : list Node) : list Node :=
  match nodes with
  | [] => kids
  | node :: r =>
      let kids1 := if (i =? 0)%nat then kids else kids ++ [Text commaSeparator] in
      appendFrom (S i) r (kids1 ++ [node])
  end.

Fixpoint setAttribute (name value : string) (attrs : list (string * string))
  : list (string * string) :=
  match attrs with
  | [] => [(name, value)]
  | (k, v) :: r =>
      if String.eqb k name then (k, value) :: r
      else (k, v) :: setAttribute name value r
  end.

(** Modelled from the spec: [ve.targetLinksToNewWindow] is not in this
    file; "any produced links are configured to open in a new browsing
    context", which for a link is the attribute [target="_blank"].  The
    links are the [a] elements with an [href] below the container. *)
Fixpoint targetLinks (n : Node) : Node :=
  match n with
  | Element t attrs c =>
      let attrs' :=
        if String.eqb (toLowerCase t) "a" &&
           match lookupAttribute "href" attrs with Some _ => true | None => false end
        then setAttribute "target" "_blank" attrs
        else attrs in
      Element t attrs' (map targetLinks c)
  | _ => n
  end.

(** Modelled from the spec: [ve.targetLinksToNewWindow( container )],
    see [targetLinks]; it configures the links below the container and
    leaves the container itself alone. *)
Definition targetLinksToNewWindow (container : Node) : Node :=
  match container with
  | Element t attrs c => Element t attrs (map targetLinks c)
  | _ => container
  end.

Definition getDescriptionDom (model : Model) : Result Node :=
  mapped <- mapM describePartDom (getPartsList model) ;;
  let nodes := filterNodes mapped in
  let span := Element "span" [] (appendFrom 0 nodes []) in
  Ok (targetLinksToNewWindow span).

(** *** The description as the specification words it *)

(** What one part contributes: the display name of its title, or its
    template name, or nothing. *)
Definition partEntry (part : Part) : list string :=
  match truthyString (templatePage part) with
  | Some page =>
      match newFromText page with
      | Some title => [getRelativeText title templateNamespace]
      | None => []
      end
  | None =>
      match truthyString (template part) with
      | Some name => [name]
      | None => []
      end
  end.

(** The hyperlink of the rich description. *)
Definition newWindowLink (text href : string) : Node :=
  Element "a" [("href", href); ("target", "_blank")]
          (if nonEmpty text then [Text text] else []).

Definition partEntryDom (part : Part) : list Node :=
  match truthyString (templatePage part) with
  | Some page =>
      match newFromText page with
      | Some title =>
          [newWindowLink (getRelativeText title templateNamespace) (getUrl title)]
      | None => []
      end
  | None =>
      match truthyString (template part) with
      | Some name => [Text name]
      | None => []
      end
  end.

(** Entries with one separator between two neighbours. *)
Fixpoint separated {A : Type} (sep : A) (l : list A) : list A :=
  match l with
  | [] => []
  | [x] => [x]
  | x :: r => x :: sep :: separated sep r
  end.

(** Every page named by the parts is a title. *)
Definition resolvable (parts : list Part) : Prop :=
  forall part page,
    In part parts -> truthyString (templatePage part) = Some page ->
    newFromText page <> None.

(** No title named by the parts has an empty display name. *)
Definition namedTitles (parts : list Part) : Prop :=
  forall part page title,
    In part parts -> truthyString (templatePage part) = Some page ->
    newFromText page = Some title ->
    getRelativeText title templateNamespace <> "".

End Description.

(** ** filterRenderedDomElements *)

(** *** The selector *)

(** [[name^="value"]] *)
Definition attrStartsWith (name value : string) (n : Node) : bool :=
  match getAttribute n name with
  | Some v => String.prefix value v
  | None => false
  end.

Definition isSpace (c : ascii) : bool :=
  let n := N_of_ascii c in
  ((n =? 32) || (n =? 9) || (n =? 10) || (n =? 12) || (n =? 13))%N.

(** The words of a space-separated attribute value; [cur] is the word
    being read. *)
Fixpoint wordsFrom (cur : string) (s : string) : list string :=
  match s with
  | EmptyString => if nonEmpty cur then [cur] else []
  | String c r =>
      if isSpace c
      then (if nonEmpty cur then [cur] else []) ++ wordsFrom "" r
      else wordsFrom (cur ++ String c "") r
  end.

(** The letters A-Z in lower case, every other code unit as it is. *)
Definition asciiLowerChar (c : ascii) : ascii :=
  let n := N_of_ascii c in
  if ((65 <=? n) && (n <=? 90))%N then ascii_of_N (n + 32) else c.

Fixpoint asciiLowerCase (s : string) : string :=
  match s with
  | EmptyString => EmptyString
  | String c r => String (asciiLowerChar c) (asciiLowerCase r)
  end.

(** [[name~="word"]] for an attribute whose value HTML compares without
    regard to ASCII case, as it does for [rel]: one of the words of the
    value is [word], up to the case of the letters A-Z. *)
Definition attrHasWord (name word : string) (n : Node) : bool :=
  match getAttribute n name with
  | Some v =>
      existsb (fun w => String.eqb (asciiLowerCase w) (asciiLowerCase word))
              (wordsFrom "" v)
  | None => false
  end.

Definition isTag (tag : string) (n : Node) : bool :=
  match n with
  | Element t _ _ => String.eqb (toLowerCase t) tag
  | _ => false
  end.

(** [style:not([data-mw-deduplicate^="TemplateStyles:"])] *)
Definition unsanctionedStyle (n : Node) : bool :=
  isTag "style" n && negb (attrStartsWith "data-mw-deduplicate" "TemplateStyles:" n).

(** [link:not([rel~="mw-deduplicated-inline-style"][href^="mw-data:TemplateStyles:"])] *)
Definition unsanctionedLink (n : Node) : bool :=
  isTag "link" n &&
  negb (attrHasWord "rel" "mw-deduplicated-inline-style" n &&
        attrStartsWith "href" "mw-data:TemplateStyles:" n).

(** The selector of [filterRenderedDomElements], a list of the two. *)
Definition selector (n : Node) : bool :=
  unsanctionedStyle n || unsanctionedLink n.

(** *** jQuery sets over a forest

    The nodes handed to [$( domElements )] are the roots of a forest.  A
    node is named by its path: the index of its root in [domElements],
    then the index of a child, and so on.  A jQuery object is its matched
    set and the object it was derived from, which [end] returns. *)

Definition path : Type := list nat.

Inductive jQuery : Type :=
| JQ (matched : list path) (prevObject : option jQuery).

Definition matched (q : jQuery) : list path :=
  match q with JQ m _ => m end.

Fixpoint path_eqb (p q : path) : bool :=
  match p, q with
  | [], [] => true
  | i :: p', j :: q' => (i =? j)%nat && path_eqb p' q'
  | _, _ => false
  end.

(** Document order: a node comes before its descendants and before its
    later siblings. *)
Fixpoint path_ltb (p q : path) : bool :=
  match p, q with
  | [], [] => false
  | [], _ :: _ => true
  | _ :: _, [] => false
  | i :: p', j :: q' =>
      if (i <? j)%nat then true
      else if (i =? j)%nat then path_ltb p' q'
      else false
  end.

Fixpoint insertPath (p : path) (l : list path) : list path :=
  match l with
  | [] => [p]
  | q :: r =>
      if path_eqb p q then l
      else if path_ltb p q then p :: l
      else q :: insertPath p r
  end.

(** [jQuery.uniqueSort] *)
Definition uniqueSort (l : list path) : list path :=
  fold_right insertPath [] l.

Fixpoint nodeAtIn (c : list Node) (p : path) : option Node :=
  match p with
  | [] => None
  | i :: p' =>
      match nth_error c i with
      | Some n =>
          match p' with
          | [] => Some n
          | _ => nodeAtIn (childNodes n) p'
          end
      | None => None
      end
  end.

Definition matchesAt (sel : Node -> bool) (forest : list Node) (p : path) : bool :=
  match nodeAtIn forest p with
  | Some n => sel n
  | None => false
  end.

Section Kids.

Variable sel : Node -> bool.
Variable below : path -> Node -> list path.
Variable here : path.

(** The paths of the children [c] of the node at [here], from child index
    [j] on, that match [sel], each followed by what [below] finds under
    it. *)
Fixpoint findKids (j : nat) (c : list Node) : list path :=
  match c with
  | [] => []
  | x :: r =>
      (if sel x then [here ++ [j]] else [])
        ++ below (here ++ [j]) x
        ++ findKids (S j) r
  end.

End Kids.

(** The paths of the descendants of [n], the node at [here], that match
    [sel], in document order. *)
Fixpoint findBelow (sel : Node -> bool) (here : path) (n : Node) : list path :=
  match n with
  | Element _ _ c => findKids sel (findBelow sel) here 0 c
  | _ => []
  end.

Fixpoint findRoots (sel : Node -> bool) (i : nat) (forest : list Node) : list path :=
  match forest with
  | [] => []
  | n :: r => findBelow sel [i] n ++ findRoots sel (S i) r
  end.

(** [$( domElements )] *)
Definition jq (domElements : list Node) : jQuery :=
  JQ (map (fun i => [i]) (seq 0 (List.length domElements))) None.

(** [.find( selector )]: the matching descendants of the matched nodes.
    The chain of this file calls it on the set of the roots. *)
Definition jq_find (sel : Node -> bool) (forest : list Node) (q : jQuery) : jQuery :=
  JQ (uniqueSort
        (flat_map (fun p =>
                     match nodeAtIn forest p with
                     | Some n => findBelow sel p n
                     | None => []
                     end) (matched q)))
     (Some q).

(** [.filter( selector )] *)
Definition jq_filter (sel : Node -> bool) (forest : list Node) (q : jQuery) : jQuery :=
  JQ (filter (matchesAt sel forest) (matched q)) (Some q).

(** [.add( other )] *)
Definition jq_add (q other : jQuery) : jQuery :=
  JQ (uniqueSort (matched q ++ matched other)) (Some q).

(** [.end()] *)
Definition jq_end (q : jQuery) : jQuery :=
  match q with
  | JQ _ (Some prev) => prev
  | JQ _ None => JQ [] None
  end.

(** [.addBack( selector )] is [this.add( this.prevObject.filter( selector ) )]. *)
Definition jq_addBack (sel : Node -> bool) (forest : list Node) (q : jQuery) : jQuery :=
  jq_add q (jq_filter sel forest (jq_end q)).

Definition inSet (p : path) (set : list path) : bool :=
  existsb (path_eqb p) set.

Section DetachKids.

Variable set : list path.
Variable below : path -> Node -> Node.
Variable here : path.

(** The children [c] of the node at [here], from child index [j] on,
    without those of [set]; [below] has worked on those that stay. *)
Fixpoint detachKids (j : nat) (c : list Node) : list Node :=
  match c with
  | [] => []
  | x :: r =>
      if inSet (here ++ [j]) set then detachKids (S j) r
      else below (here ++ [j]) x :: detachKids (S j) r
  end.

End DetachKids.

(** [node.parentNode.removeChild( node )] for every node of [set] below
    [n], the node at [here]. *)
Fixpoint detachBelow (set : list path) (here : path) (n : Node) : Node :=
  match n with
  | Element t a c => Element t a (detachKids set (detachBelow set) here 0 c)
  | _ => n
  end.

Fixpoint detachRoots (set : list path) (i : nat) (forest : list Node) : list Node :=
  match forest with
  | [] => []
  | n :: r => detachBelow set [i] n :: detachRoots set (S i) r
  end.

(** [.remove()]: every matched node that has a parent is taken out of it;
    a root has no parent in the forest and stays what it is.  The result
    is the forest after the call; the call returns the same jQuery
    object. *)
Definition jq_remove (forest : list Node) (q : jQuery) : list Node :=
  detachRoots (matched q) 0 forest.

(** [.toArray()], read in the forest as it is now.  Paths of roots are
    not moved by [remove]. *)
Definition jq_toArray (forest : list Node) (q : jQuery) : list Node :=
  flat_map (fun p => match nodeAtIn forest p with
                     | Some n => [n]
                     | None => []
                     end) (matched q).

Definition filterRenderedDomElements (domElements : list Node) : list Node :=
  let q0 := jq domElements in
  let q1 := jq_find selector domElements q0 in
  let q2 := jq_addBack selector domElements q1 in
  let forest' := jq_remove domElements q2 in
  jq_toArray forest' (jq_end (jq_end q2)).

(** *** What the comment of the method asks for *)

Section Purge.

Variable below : Node -> Node.

(** The nodes of [c] that the selector does not match; [below] has worked
    on them. *)
Fixpoint purgeWith (c : list Node) : list Node :=
  match c with
  | [] => []
  | x :: r => if selector x then purgeWith r else below x :: purgeWith r
  end.

End Purge.

(** [n] without the styles and links below it which aren't from
    TemplateStyles. *)
Fixpoint purge (n : Node) : Node :=
  match n with
  | Element t a c => Element t a (purgeWith purge c)
  | _ => n
  end.

(** "We want to remove all styles and links which aren't from
    TemplateStyles": at every depth, the roots included. *)
Definition purgeAll (l : list Node) : list Node :=
  purgeWith purge l.

(** [selector] holds of no node of the tree, at any depth. *)
Fixpoint cleanNode (n : Node) : bool :=
  negb (selector n) &&
  match n with
  | Element _ _ c => forallb cleanNode c
  | _ => true
  end.

(** ** generateContents *)

(** The state of a [jQuery.Deferred]: once settled it ignores [resolve]
    and [reject]. *)
Inductive Deferred : Type :=
| Pending
| Resolved (contents : list Node)
| Rejected.

Definition resolve (d : Deferred) (contents : list Node) : Deferred :=
  match d with
  | Pending => Resolved contents
  | _ => d
  end.

Definition reject (d : Deferred) : Deferred :=
  match d with
  | Pending => Rejected
  | _ => d
  end.

(** The arguments of [ve.init.target.parseWikitextFragment]. *)
Record Request : Type := mkRequest {
  req_wikitext : string;
  req_pst : bool;
  req_doc : nat
}.

Inductive XhrState : Type :=
| InFlight
| Settled.

(** One invocation of [generateContents]: the request it issued and the
    deferred whose promise it returned.  The promise carries
    [abort: xhr.abort]. *)
Record Call : Type := mkCall {
  request : Request;
  xhr : XhrState;
  deferred : Deferred
}.

(** What can happen to the request of a call. *)
Inductive Event : Type :=
| NetDone (response : option Json.value)   (* the server answered *)
| NetFail                                  (* the request failed *)
| Abort.                                   (* [promise.abort()] *)

(** [config] of [generateContents]. *)
Record Config : Type := mkConfig {
  cfg_wikitext : option string
}.

(** [obj[ key ]] for a value that came from JSON; [None] is [undefined]. *)
Definition getKey (obj : Json.value) (key : string) : option Json.value :=
  match obj with
  | Json.JObject members => Json.lookup (Json.jstring_of key) members
  | _ => None
  end.

(** [ve.getProp( obj, ...keys )]: [undefined] as soon as the value at hand
    is [null] or [undefined]. *)
Fixpoint getProp (obj : option Json.value) (keys : list string) : option Json.value :=
  match keys with
  | [] => obj
  | k :: r =>
      match obj with
      | None | Some Json.JNull => None
      | Some o => getProp (getKey o k) r
      end
  end.

(** [value !== 'success'] *)
Definition isNotSuccess (value : option Json.value) : bool :=
  match value with
  | Some (Json.JString s) => negb (Json.jstring_eqb s (Json.jstring_of "success"))
  | _ => true
  end.

Section GenerateContents.

Variable whitespaceClass : ascii -> bool.
Variable stripParsoidFallbackIds :
  string -> list (string * string) -> list Node -> list (string * string) * list Node.

(** [$.parseHTML( data, context )]; [None] is a falsy result. *)
Variable parseHTML : option Json.value -> option nat -> option (list Node).

(** [this.model], [null] once the node is destroyed. *)
Definition This : Type := option Model.

Definition onParseError (d : Deferred) : Deferred :=
  reject d.

Definition onParseSuccess (this : This) (d : Deferred) (response : option Json.value)
  : Result Deferred :=
  if isNotSuccess (getProp response ["visualeditor"; "result"]) then
    Ok (onParseError d)
  else
    let context :=
      match this with
      | Some model => getModelHtmlDocument model
      | None => None
      end in
    let contentNodes :=
      match parseHTML (getProp response ["visualeditor"; "content"]) context with
      | Some nodes => nodes
      | None => []
      end in
    filtered <- filterRendering whitespaceClass stripParsoidFallbackIds contentNodes ;;
    Ok (resolve d filtered).

(** [generateContents( config )]: reading a property of a [null] model
    is a [TypeError]. *)
Definition generateContents (this : This) (config : option Config) : Result Call :=
  wikitext <-
    match config with
    | Some cfg =>
        match truthyString (cfg_wikitext cfg) with
        | Some w => Ok w
        | None =>
            match this with
            | Some model => Ok (getWikitext model)
            | None => Throw TypeError
            end
        end
    | None =>
        match this with
        | Some model => Ok (getWikitext model)
        | None => Throw TypeError
        end
    end ;;
  doc <-
    match this with
    | Some model => Ok (getDocument model)
    | None => Throw TypeError
    end ;;
  Ok (mkCall (mkRequest wikitext true doc) InFlight Pending).

(** Modelled from the spec: [ve.init.target.parseWikitextFragment] is
    not in this file.  It issues "one cancellable network request",
    "modeled as a cancellable future/promise": the request settles once,
    with a response (the [done] callback runs), with a failure (the
    [fail] callback runs) or by [abort], which fails it; a settled
    request delivers nothing more.  The second component is the
    exception that leaves the callback, if any. *)
Definition deliver (this : This) (c : Call) (e : Event) : Call * option Exception :=
  match xhr c with
  | Settled => (c, None)
  | InFlight =>
      match e with
      | NetDone response =>
          match onParseSuccess this (deferred c) response with
          | Ok d => (mkCall (request c) Settled d, None)
          | Throw ex => (mkCall (request c) Settled (deferred c), Some ex)
          end
      | NetFail | Abort =>
          (mkCall (request c) Settled (onParseError (deferred c)), None)
      end
  end.

(** The call after a sequence of events. *)
Fixpoint deliverAll (this : This) (c : Call) (es : list Event) : Call :=
  match es with
  | [] => c
  | e :: r => deliverAll this (fst (deliver this c e)) r
  end.

End GenerateContents.

(** ** The node and its model in the heap

    [this.model] refers to an object of the data model, which the editor
    owns.  [ModelObject] is the state of that object.  Its methods are
    code of the editor: a call returns a value and the object as the
    method left it.  A program of the node runs on the heap: it can call
    the methods of the object, and it could assign to the object or to
    [this.model]. *)

Section Heap.

Variable ModelObject : Type.

Record Heap : Type := mkHeap {
  h_object : ModelObject;      (* the model object *)
  h_this_model : bool;         (* [this.model] is the object, or [null] *)
  h_calls : list Call          (* the calls of [generateContents] under way *)
}.

(** A program: its result, or the exception it threw, and the heap it
    left. *)
Definition Prog (A : Type) : Type := Heap -> Result A * Heap.

Definition ret {A : Type} (a : A) : Prog A := fun h => (Ok a, h).

Definition liftR {A : Type} (r : Result A) : Prog A := fun h => (r, h).

Definition bindP {A B : Type} (m : Prog A) (k : A -> Prog B) : Prog B :=
  fun h =>
    match m h with
    | (Ok a, h') => k a h'
    | (Throw e, h') => (Throw e, h')
    end.

(** [this.model.method()], or [model.method()] for the argument of a
    static method: what is left of the object is up to the method. *)
Definition callModel {B : Type} (method : ModelObject -> B * ModelObject) : Prog B :=
  fun h =>
    let (b, o) := method (h_object h) in
    (Ok b, mkHeap o (h_this_model h) (h_calls h)).

(** Reading a property of [this.model] when it is [null]. *)
Definition needModel : Prog unit :=
  fun h => if h_this_model h then (Ok tt, h) else (Throw TypeError, h).

(** An assignment to the model object, and one to [this.model]: what the
    editor does when a transaction changes the model or the node is
    destroyed. *)
Definition assignObject (o : ModelObject) : Prog unit :=
  fun h => (Ok tt, mkHeap o (h_this_model h) (h_calls h)).

Definition assignThisModel (b : bool) : Prog unit :=
  fun h => (Ok tt, mkHeap (h_object h) b (h_calls h)).

Definition pushCall (c : Call) : Prog nat :=
  fun h => (Ok (List.length (h_calls h)),
            mkHeap (h_object h) (h_this_model h) (h_calls h ++ [c])).

Fixpoint replaceNth {A : Type} (i : nat) (a : A) (l : list A) : list A :=
  match l, i with
  | [], _ => []
  | _ :: r, O => a :: r
  | x :: r, S i' => x :: replaceNth i' a r
  end.

Definition putCall (handle : nat) (c : Call) : Prog unit :=
  fun h => (Ok tt,
            mkHeap (h_object h) (h_this_model h) (replaceNth handle c (h_calls h))).

(** The methods of the model that the file calls. *)
Variable obj_getPartsList : ModelObject -> list Part * ModelObject.
Variable obj_getWikitext : ModelObject -> string * ModelObject.
Variable obj_getDocument : ModelObject -> nat * ModelObject.
Variable obj_getHtmlDocument : ModelObject -> option nat * ModelObject.

Variable Title : Type.
Variable newFromText : string -> option Title.
Variable getRelativeText : Title -> Z -> string.
Variable getUrl : Title -> string.
Variable templateNamespace : Z.
Variable commaSeparator : string.
Variable whitespaceClass : ascii -> bool.
Variable stripParsoidFallbackIds :
  string -> list (string * string) -> list Node -> list (string * string) * list Node.
Variable parseHTML : option Json.value -> option nat -> option (list Node).

(** [getDescription( model )] *)
Definition getDescriptionP : Prog string :=
  bindP needModel (fun _ =>
  bindP (callModel obj_getPartsList) (fun parts =>
  liftR (descs <- mapM (describePart Title newFromText getRelativeText
                                     templateNamespace) parts ;;
         Ok (join commaSeparator (filter nonEmpty descs))))).

(** [getDescriptionDom( model )] *)
Definition getDescriptionDomP : Prog Node :=
  bindP needModel (fun _ =>
  bindP (callModel obj_getPartsList) (fun parts =>
  liftR (mapped <- mapM (describePartDom Title newFromText getRelativeText getUrl
                                         templateNamespace) parts ;;
         Ok (targetLinksToNewWindow
               (Element "span" []
                  (appendFrom commaSeparator 0 (filterNodes mapped) [])))))).

(** [generateContents( config )] *)
Definition generateContentsP (config : option Config) : Prog nat :=
  bindP
    match config with
    | Some cfg =>
        match truthyString (cfg_wikitext cfg) with
        | Some w => ret w
        | None => bindP needModel (fun _ => callModel obj_getWikitext)
        end
    | None => bindP needModel (fun _ => callModel obj_getWikitext)
    end (fun wikitext =>
  bindP needModel (fun _ =>
  bindP (callModel obj_getDocument) (fun doc =>
  pushCall (mkCall (mkRequest wikitext true doc) InFlight Pending)))).

(** [this.model && this.getModelHtmlDocument()] *)
Definition modelHtmlDocument : Prog (option nat) :=
  fun h => if h_this_model h then callModel obj_getHtmlDocument h else (Ok None, h).

(** [onParseSuccess( deferred, response )] *)
Definition onParseSuccessP (d : Deferred) (response : option Json.value)
  : Prog Deferred :=
  if isNotSuccess (getProp response ["visualeditor"; "result"]) then
    ret (onParseError d)
  else
    bindP modelHtmlDocument (fun context =>
    let contentNodes :=
      match parseHTML (getProp response ["visualeditor"; "content"]) context with
      | Some nodes => nodes
      | None => []
      end in
    bindP (liftR (filterRendering whitespaceClass stripParsoidFallbackIds
                                  contentNodes)) (fun filtered =>
    ret (resolve d filtered))).

(** An event of the request of the call [handle]; the result is the
    exception that left the callback, if any. *)
Definition deliverP (handle : nat) (e : Event) : Prog (option Exception) :=
  fun h =>
    match nth_error (h_calls h) handle with
    | None => (Ok None, h)
    | Some c =>
        match xhr c with
        | Settled => (Ok None, h)
        | InFlight =>
            match e with
            | NetDone response =>
                match onParseSuccessP (deferred c) response h with
                | (Ok d, h') =>
                    bindP (putCall handle (mkCall (request c) Settled d))
                          (fun _ => ret None) h'
                | (Throw ex, h') =>
                    bindP (putCall handle (mkCall (request c) Settled (deferred c)))
                          (fun _ => ret (Some ex)) h'
                end
            | NetFail | Abort =>
                bindP (putCall handle
                         (mkCall (request c) Settled (onParseError (deferred c))))
                      (fun _ => ret None) h
            end
        end
    end.

(** The model as the methods of the object show it. *)
Definition view (o : ModelObject) : Model :=
  mkModel (fst (obj_getPartsList o)) (fst (obj_getWikitext o))
          (fst (obj_getDocument o)) (fst (obj_getHtmlDocument o)).

(** [this.model] as a value: the view of the object, or [null]. *)
Definition thisModel (h : Heap) : option Model :=
  if h_this_model h then Some (view (h_object h)) else None.

(** A call into the file, from the editor or from the network. *)
Inductive Operation : Type :=
| OpGetDescription
| OpGetDescriptionDom
| OpFilterRendering (contentNodes : list Node)
| OpFilterRenderedDomElements (domElements : list Node)
| OpGenerateContents (config : option Config)
| OpDeliver (handle : nat) (e : Event).

(** The heap after an operation of the node. *)
Definition perform (op : Operation) (h : Heap) : Heap :=
  match op with
  | OpGetDescription => snd (getDescriptionP h)
  | OpGetDescriptionDom => snd (getDescriptionDomP h)
  | OpFilterRendering contentNodes =>
      snd (liftR (filterRendering whitespaceClass stripParsoidFallbackIds
                                  contentNodes) h)
  | OpFilterRenderedDomElements domElements =>
      snd (ret (filterRenderedDomElements domElements) h)
  | OpGenerateContents config => snd (generateContentsP config h)
  | OpDeliver handle e => snd (deliverP handle e h)
  end.

(** What happens to the heap: an operation of the node, or a step of the
    editor, which changes the model or destroys the node. *)
Inductive Step : Type :=
| ByNode (op : Operation)
| EditorChanges (change : ModelObject -> ModelObject)
| EditorDestroys.

Definition step (s : Step) (h : Heap) : Heap :=
  match s with
  | ByNode op => perform op h
  | EditorChanges change => snd (assignObject (change (h_object h)) h)
  | EditorDestroys => snd (assignThisModel false h)
  end.

Fixpoint run (steps : list Step) (h : Heap) : Heap :=
  match steps with
  | [] => h
  | s :: r => run r (step s h)
  end.

Definition byNode (s : Step) : bool :=
  match s with
  | ByNode _ => true
  | _ => false
  end.

(** The object can get from the first state to the second through calls
    of its own methods, those that the file calls. *)
Inductive throughMethods : ModelObject -> ModelObject -> Prop :=
| tm_same (o : ModelObject) : throughMethods o o
| tm_getPartsList (o o' : ModelObject) :
    throughMethods o o' -> throughMethods o (snd (obj_getPartsList o'))
| tm_getWikitext (o o' : ModelObject) :
    throughMethods o o' -> throughMethods o (snd (obj_getWikitext o'))
| tm_getDocument (o o' : ModelObject) :
    throughMethods o o' -> throughMethods o (snd (obj_getDocument o'))
| tm_getHtmlDocument (o o' : ModelObject) :
    throughMethods o o' -> throughMethods o (snd (obj_getHtmlDocument o')).

(** A program that leaves [this.model] alone and the object to its own
    methods. *)
Definition frames {A : Type} (m : Prog A) : Prop :=
  forall h,
    h_this_model (snd (m h)) = h_this_model h /\
    throughMethods (h_object h) (h_object (snd (m h))).

(** The methods only read the object. *)
Definition readOnlyMethods : Prop :=
  (forall o, snd (obj_getPartsList o) = o) /\
  (forall o, snd (obj_getWikitext o) = o) /\
  (forall o, snd (obj_getDocument o) = o) /\
  (forall o, snd (obj_getHtmlDocument o) = o).

End Heap.

(** ** A small host, to run the examples *)

Module Sample.

(** The characters [ \t\f\r\n]. *)
Definition whitespaceClass (c : ascii) : bool := isSpace c.

Definition isFallbackSpan (n : Node) : bool :=
  match n with
  | Element t attrs [] =>
      String.eqb (toLowerCase t) "span" &&
      match lookupAttribute "typeof" attrs, lookupAttribute "id" attrs with
      | Some ty, Some _ => String.eqb ty "mw:FallbackId"
      | _, _ => false
      end
  | _ => false
  end.

Fixpoint stripBelow (n : Node) : Node :=
  match n with
  | Element t attrs c =>
      Element t attrs
        ((fix kids (c : list Node) : list Node :=
            match c with
            | [] => []
            | x :: r => if isFallbackSpan x then kids r else stripBelow x :: kids r
            end) c)
  | _ => n
  end.

(** A cleaning that takes the empty fallback spans out of the subtree. *)
Definition stripParsoidFallbackIds (t : string) (attrs : list (string * string))
           (c : list Node) : list (string * string) * list Node :=
  (attrs, childNodes (stripBelow (Element t attrs c))).

(** Titles are their text; a text with one of [#<>[]{}|] is no title. *)
Definition Title : Type := string.

Definition forbidden (c : ascii) : bool :=
  existsb (Ascii.eqb c) (list_ascii_of_string "#<>[]{}|").

Definition newFromText (text : string) : option Title :=
  if nonEmpty text && negb (existsb forbidden (list_ascii_of_string text))
  then Some text else None.

Definition getRelativeText (t : Title) (ns : Z) : string :=
  if (ns =? 10)%Z && String.prefix "Template:" t
  then substring 9 (String.length t - 9) t
  else t.

Definition getUrl (t : Title) : string := "/wiki/" ++ t.

Definition templateNamespace : Z := 10.

Definition commaSeparator : string := ", ".

(** A parser that knows the fragments of the examples. *)
Definition parseHTML (data : option Json.value) (context : option nat)
  : option (list Node) :=
  match data with
  | Some (Json.JString s) =>
      if Json.jstring_eqb s (Json.jstring_of "<p>Hi</p>")
      then Some [Element "P" [] [Text "Hi"]]
      else if Json.jstring_eqb s
                (Json.jstring_of ("<div data-mw=" ++ Json.quoted "{" ++ "></div>"))
      then Some [Element "DIV" [("data-mw", "{")] []]
      else Some []
  | _ => Some []
  end.

Definition model : Model :=
  mkModel [mkPart (Some "Foo") None; mkPart None (Some "bar"); mkPart None None]
          "{{Foo}}{{bar}}" 0 (Some 0).

(** A model object whose state is the record above and whose methods read
    its fields. *)
Definition obj_getPartsList (o : Model) : list Part * Model := (getPartsList o, o).
Definition obj_getWikitext (o : Model) : string * Model := (getWikitext o, o).
Definition obj_getDocument (o : Model) : nat * Model := (getDocument o, o).
Definition obj_getHtmlDocument (o : Model) : option nat * Model :=
  (getModelHtmlDocument o, o).

End Sample.

(** ** The render filtering as the specification words it *)

Section FilterRenderingSpec.

Variable whitespaceClass : ascii -> bool.
Variable stripParsoidFallbackIds :
  string -> list (string * string) -> list Node -> list (string * string) * list Node.

(** The [data-mw] attribute of a top-level node can be read: it is
    missing, or it holds JSON. *)
Definition readableDataMw (n : Node) : bool :=
  match n with
  | Element _ attrs _ =>
      match lookupAttribute "data-mw" attrs with
      | Some text =>
          match Json.parse text with
          | Ok _ => true
          | Throw _ => false
          end
      | None => true
      end
  | _ => true
  end.

(** A top-level element "flagged by its embedded metadata as
    auto-generated": its [data-mw] is an object with a truthy
    [autoGenerated]. *)
Definition flaggedAutoGenerated (n : Node) : bool :=
  match n with
  | Element _ attrs _ =>
      match lookupAttribute "data-mw" attrs with
      | Some text =>
          match Json.parse text with
          | Ok (Json.JObject members) =>
              Json.truthy_opt (Json.lookup (Json.jstring_of "autoGenerated") members)
          | _ => false
          end
      | None => false
      end
  | _ => false
  end.

(** Step 1, with the failure of an unreadable attribute. *)
Fixpoint dropAutoGenerated (nodes : list Node) : Result (list Node) :=
  match nodes with
  | [] => Ok []
  | n :: r =>
      if readableDataMw n then
        r' <- dropAutoGenerated r ;;
        Ok (if flaggedAutoGenerated n then r' else n :: r')
      else Throw SyntaxError
  end.

(** Step 1 as the specification states it: the flagged elements are
    dropped, every other node is kept. *)
Definition dropFlagged (nodes : list Node) : list Node :=
  filter (fun n => negb (flaggedAutoGenerated n)) nodes.

(** An element after the host has cleaned it of its fallback ids; a node
    that is no element is left alone. *)
Definition cleaned (n : Node) : Node :=
  match n with
  | Element t attrs c =>
      Element t (fst (stripParsoidFallbackIds t attrs c))
                (snd (stripParsoidFallbackIds t attrs c))
  | Text _ | Comment _ => n
  end.

(** Step 2. *)
Definition stripFallbackIds (nodes : list Node) : list Node :=
  map cleaned nodes.

(** A node that is "pure whitespace text". *)
Definition whitespaceText (n : Node) : bool :=
  match n with
  | Text data =>
      nonEmpty data && forallb whitespaceClass (list_ascii_of_string data)
  | _ => false
  end.

Fixpoint dropWhile {A : Type} (f : A -> bool) (l : list A) : list A :=
  match l with
  | [] => []
  | a :: r => if f a then dropWhile f r else l
  end.

(** Step 3. *)
Definition trimWhitespace (nodes : list Node) : list Node :=
  rev (dropWhile whitespaceText (rev (dropWhile whitespaceText nodes))).

(** A paragraph: an element that the document names [P], or [p]. *)
Definition isParagraph (n : Node) : bool :=
  match n with
  | Element t _ _ => String.eqb t "P" || String.eqb t "p"
  | _ => false
  end.

(** Step 4. *)
Definition unwrapParagraph (nodes : list Node) : list Node :=
  match nodes with
  | [n] => if isParagraph n then childNodes n else nodes
  | _ => nodes
  end.

Definition pipeline (nodes : list Node) : Result (list Node) :=
  kept <- dropAutoGenerated nodes ;;
  Ok (unwrapParagraph (trimWhitespace (stripFallbackIds kept))).

(** The four steps in the order the specification gives them, on every
    input: a [data-mw] that cannot be read flags nothing. *)
Definition statedPipeline (nodes : list Node) : list Node :=
  unwrapParagraph (trimWhitespace (stripFallbackIds (dropFlagged nodes))).

End FilterRenderingSpec.

(** ** The response as the specification words it *)

(** A response "shaped as [{ visualeditor: { result: 'success', ... } }]":
    it reports a success status explicitly. *)
Definition reportsSuccess (response : option Json.value) : bool :=
  match response with
  | Some (Json.JObject members) =>
      match Json.lookup (Json.jstring_of "visualeditor") members with
      | Some (Json.JObject inner) =>
          match Json.lookup (Json.jstring_of "result") inner with
          | Some (Json.JString s) => Json.jstring_eqb s (Json.jstring_of "success")
          | _ => false
          end
      | _ => false
      end
  | _ => false
  end.

(** [response.visualeditor.content] of a response that reports success. *)
Definition responseContent (response : option Json.value) : option Json.value :=
  match response with
  | Some (Json.JObject members) =>
      match Json.lookup (Json.jstring_of "visualeditor") members with
      | Some (Json.JObject inner) => Json.lookup (Json.jstring_of "content") inner
      | _ => None
      end
  | _ => None
  end.

(** The nodes that a response which reports success is parsed into, in
    the context of the HTML document of the model. *)
Definition parsedContent
           (parseHTML : option Json.value -> option nat -> option (list Node))
           (this : option Model) (response : option Json.value) : list Node :=
  match parseHTML (responseContent response)
                  (match this with
                   | Some model => getModelHtmlDocument model
                   | None => None
                   end) with
  | Some nodes => nodes
  | None => []
  end.

(** The call once its request has settled, with the deferred in state
    [d]. *)
Definition settled (c : Call) (d : Deferred) : Call :=
  mkCall (request c) Settled d.

(** A response of the examples: success, with the given HTML. *)
Definition successResponse (html : string) : option Json.value :=
  Some (Json.JObject
          [(Json.jstring_of "visualeditor",
            Json.JObject
              [(Json.jstring_of "result", Json.JString (Json.jstring_of "success"));
               (Json.jstring_of "content", Json.JString (Json.jstring_of html))])]).

(** ** The text of a node *)

(** The text below a node: the data of its text descendants, in document
    order. *)
Fixpoint descendantText (n : Node) : string :=
  match n with
  | Element _ _ c => String.concat "" (map descendantText c)
  | Text data => data
  | Comment _ => ""
  end.

(** [node.textContent], read. *)
Definition textContent (n : Node) : string :=
  match n with
  | Comment data => data
  | _ => descendantText n
  end.

(** * Properties *)

(** ** JSON values *)

Lemma falsy_has_no_autoGenerated (v : Json.value) :
  Json.truthy v = false -> Json.autoGenerated v = None.
Proof.
  destruct v; simpl; try reflexivity; discriminate.
Qed.

(** ** filterRendering *)

Lemma lowerChar_p (ch : ascii) :
  lowerChar ch = "p"%char <-> ch = "p"%char \/ ch = "P"%char.
Proof.
  destruct ch as [[] [] [] [] [] [] [] []]; vm_compute;
    split; intros H; try discriminate;
      try (destruct H as [H|H]; discriminate); auto.
Qed.

Lemma toLowerCase_p (t : string) :
  toLowerCase t = "p" <-> t = "P" \/ t = "p".
Proof.
  split.
  - destruct t as [|ch [|ch2 r]]; cbn [toLowerCase]; try discriminate.
    intros H. injection H as H. apply lowerChar_p in H.
    destruct H as [-> | ->]; [now right|now left].
  - intros [-> | ->]; reflexivity.
Qed.

Lemma lowered_name_is_p (n : Node) :
  String.eqb (toLowerCase (nodeName n)) "p" = isParagraph n.
Proof.
  destruct n as [t a c | d | d]; try reflexivity.
  cbn [nodeName isParagraph].
  destruct (String.eqb_spec (toLowerCase t) "p") as [E|E].
  - apply toLowerCase_p in E. destruct E as [-> | ->]; reflexivity.
  - symmetry. apply orb_false_iff. split; apply String.eqb_neq; intros ->;
      apply E; reflexivity.
Qed.

Section FilterRenderingFacts.

Variable whitespaceClass : ascii -> bool.
Variable stripParsoidFallbackIds :
  string -> list (string * string) -> list Node -> list (string * string) * list Node.

Local Abbreviation isWS := (isWhitespaceNode whitespaceClass).
Local Abbreviation wsText := (whitespaceText whitespaceClass).
Local Abbreviation FR := (filterRendering whitespaceClass stripParsoidFallbackIds).
Local Abbreviation PIPE := (pipeline whitespaceClass stripParsoidFallbackIds).

Lemma parse_throws_SyntaxError (text : string) (e : Exception) :
  Json.parse text = Throw e -> e = SyntaxError.
Proof.
  unfold Json.parse.
  destruct (Json.lex _ _); [destruct (Json.parse_tokens _ _)|]; congruence.
Qed.

Lemma keepNode_spec (n : Node) :
  keepNode n =
  if readableDataMw n then Ok (negb (flaggedAutoGenerated n)) else Throw SyntaxError.
Proof.
  destruct n as [t attrs c | d | d]; try reflexivity.
  unfold keepNode, dataMw, hasAttribute, getAttribute, readableDataMw,
    flaggedAutoGenerated.
  simpl nodeType. simpl Z.eqb. cbv iota.
  destruct (lookupAttribute "data-mw" attrs) as [text|]; [|reflexivity].
  destruct (Json.parse text) as [v|e] eqn:E; simpl.
  - destruct v; simpl; try reflexivity; now rewrite ?orb_true_r.
  - now rewrite (parse_throws_SyntaxError text e E).
Qed.

Lemma filter_is_dropAutoGenerated (nodes : list Node) :
  filterM keepNode nodes = dropAutoGenerated nodes.
Proof.
  induction nodes as [|n r IH]; [reflexivity|].
  simpl. rewrite keepNode_spec, IH.
  destruct (readableDataMw n); [|reflexivity].
  simpl. destruct (dropAutoGenerated r); simpl; [|reflexivity].
  now destruct (flaggedAutoGenerated n).
Qed.

Lemma isWhitespaceNode_spec (n : Node) : isWS (Some n) = wsText n.
Proof.
  destruct n as [t a c | d | d]; try reflexivity.
  unfold isWhitespaceNode, whitespaceRegex_test, whitespaceText.
  now destruct d.
Qed.

Lemma shiftLoop_spec (l : list Node) :
  shiftLoop whitespaceClass l = dropWhile wsText l.
Proof.
  induction l as [|n r IH]; [reflexivity|].
  cbn [shiftLoop dropWhile]. rewrite isWhitespaceNode_spec, IH. reflexivity.
Qed.

Lemma lastNode_snoc (l : list Node) (n : Node) : lastNode (l ++ [n]) = Some n.
Proof.
  unfold lastNode. rewrite length_app. simpl.
  replace (List.length l + 1 - 1)%nat with (List.length l) by lia.
  rewrite nth_error_app2 by lia.
  now rewrite Nat.sub_diag.
Qed.

(** The loop that pops has reached its end after [length l] turns, and
    what is left is [l] without its trailing whitespace. *)
Lemma popLoop_spec (l' : list Node) :
  forall turns, (List.length l' <= turns)%nat ->
  popLoop whitespaceClass turns (rev l') = rev (dropWhile wsText l').
Proof.
  induction l' as [|n r IH]; intros turns Hlen.
  - simpl. destruct turns; reflexivity.
  - destruct turns as [|turns]; [simpl in Hlen; lia|].
    cbn [rev popLoop dropWhile].
    rewrite lastNode_snoc, isWhitespaceNode_spec.
    destruct (wsText n).
    + rewrite removelast_last. apply IH. simpl in Hlen. lia.
    + reflexivity.
Qed.

Lemma popLoop_trims (l : list Node) :
  popLoop whitespaceClass (List.length l) l = rev (dropWhile wsText (rev l)).
Proof.
  rewrite <- (rev_involutive l) at 1 2.
  rewrite (popLoop_spec (rev l)); [reflexivity|].
  rewrite !length_rev. lia.
Qed.

(** When the loop that pops stops, its condition is false. *)
Lemma popLoop_done (l : list Node) :
  isWS (lastNode (popLoop whitespaceClass (List.length l) l)) = false.
Proof.
  rewrite popLoop_trims.
  induction (rev l) as [|n r IH]; [reflexivity|].
  cbn [dropWhile]. destruct (wsText n) eqn:E; [exact IH|].
  cbn [rev]. rewrite lastNode_snoc, isWhitespaceNode_spec. exact E.
Qed.

Lemma unwrap_spec (popped : list Node) :
  match popped with
  | [single] =>
      if String.eqb (toLowerCase (nodeName single)) "p"
      then Ok (childNodes single)
      else Ok popped
  | _ => Ok popped
  end = Ok (unwrapParagraph popped).
Proof.
  destruct popped as [|n [|m r]]; try reflexivity.
  rewrite lowered_name_is_p. cbn [unwrapParagraph].
  now destruct (isParagraph n).
Qed.

Lemma stripNode_cleaned (n : Node) :
  stripNode stripParsoidFallbackIds n = cleaned stripParsoidFallbackIds n.
Proof.
  destruct n as [t a c | d | d]; try reflexivity.
  cbn [stripNode cleaned]. now destruct (stripParsoidFallbackIds t a c).
Qed.

Lemma filterRendering_is_pipeline (nodes : list Node) :
  FR nodes = PIPE nodes.
Proof.
  unfold filterRendering, pipeline.
  destruct nodes as [|n r]; [reflexivity|].
  simpl Nat.eqb. cbv iota.
  rewrite filter_is_dropAutoGenerated.
  destruct (dropAutoGenerated (n :: r)) as [kept|e]; [|reflexivity].
  unfold bind.
  rewrite unwrap_spec, popLoop_trims, shiftLoop_spec.
  unfold stripFallbackIds.
  now rewrite (map_ext _ _ stripNode_cleaned).
Qed.

End FilterRenderingFacts.

Section FilterRenderingClaims.

Variable whitespaceClass : ascii -> bool.
Variable stripParsoidFallbackIds :
  string -> list (string * string) -> list Node -> list (string * string) * list Node.

Local Abbreviation FR := (filterRendering whitespaceClass stripParsoidFallbackIds).
Local Abbreviation steps := (statedPipeline whitespaceClass stripParsoidFallbackIds).

Lemma dropAutoGenerated_readable (nodes : list Node) :
  forallb readableDataMw nodes = true ->
  dropAutoGenerated nodes =
  Ok (filter (fun n => negb (flaggedAutoGenerated n)) nodes).
Proof.
  induction nodes as [|n r IH]; [reflexivity|].
  cbn [forallb dropAutoGenerated filter].
  intros H. apply andb_true_iff in H as [Hn Hr].
  rewrite Hn, (IH Hr). simpl.
  now destruct (flaggedAutoGenerated n).
Qed.

Lemma dropAutoGenerated_unreadable (nodes : list Node) :
  forallb readableDataMw nodes = false ->
  dropAutoGenerated nodes = Throw SyntaxError.
Proof.
  induction nodes as [|n r IH]; [discriminate|].
  cbn [forallb dropAutoGenerated].
  destruct (readableDataMw n); [|reflexivity].
  simpl. intros H. now rewrite (IH H).
Qed.

Lemma whitespaceText_space :
  whitespaceClass " "%char = true ->
  whitespaceText whitespaceClass (Text " ") = true.
Proof.
  intros H. cbn. now rewrite H.
Qed.

(** C1, amended.  On every input whose top-level [data-mw] attributes
    hold JSON, [filterRendering] is the four steps in the stated order:
    the auto-generated top-level elements are dropped, then every element
    that is left is cleaned by the host of its fallback ids, then the
    whitespace text at both ends is trimmed, and only then the single
    paragraph is unwrapped.  For [<el data-mw='{"autoGenerated":true}'>A</el>,
    <el>B</el>] the result is the one element that holds B, as the host
    cleaned it; the whitespace and the paragraph are looked at after the
    auto-generated element is gone.  On an input with a top-level
    [data-mw] that is not JSON no step gives a result: a [SyntaxError] is
    thrown. *)
Theorem filterRendering_steps_in_order :
  (forall nodes : list Node,
      forallb readableDataMw nodes = true ->
      FR nodes = Ok (steps nodes)) /\
  (forall nodes : list Node,
      forallb readableDataMw nodes = false ->
      FR nodes = Throw SyntaxError) /\
  (forall t : string,
      t <> "P"%string -> t <> "p"%string ->
      FR [Element t
            [("data-mw", ("{" ++ Json.quoted "autoGenerated" ++ ":true}")%string)]
            [Text "A"];
          Element t [] [Text "B"]]
      = Ok [Element t (fst (stripParsoidFallbackIds t [] [Text "B"]))
                      (snd (stripParsoidFallbackIds t [] [Text "B"]))]) /\
  (forall X : Node,
      whitespaceClass " "%char = true ->
      stripParsoidFallbackIds "P" [] [X] = ([], [X]) ->
      FR [Text " ";
          Element "OL"
            [("data-mw", ("{" ++ Json.quoted "autoGenerated" ++ ":true}")%string)] [];
          Text " ";
          Element "P" [] [X];
          Text " "]
      = Ok [X]).
Proof.
  split; [|split; [|split]].
  - intros nodes H. rewrite filterRendering_is_pipeline. unfold pipeline.
    now rewrite (dropAutoGenerated_readable nodes H).
  - intros nodes H. rewrite filterRendering_is_pipeline. unfold pipeline.
    now rewrite (dropAutoGenerated_unreadable nodes H).
  - intros t HP Hp. rewrite filterRendering_is_pipeline. unfold pipeline.
    change (dropAutoGenerated _) with (Ok [Element t [] [Text "B"]]).
    cbn [bind stripFallbackIds map cleaned].
    unfold trimWhitespace.
    cbn [dropWhile whitespaceText rev app unwrapParagraph isParagraph].
    apply String.eqb_neq in HP, Hp. now rewrite HP, Hp.
  - intros X Hws Hstrip. rewrite filterRendering_is_pipeline. unfold pipeline.
    change (dropAutoGenerated _)
      with (Ok [Text " "; Text " "; Element "P" [] [X]; Text " "]).
    cbn [bind stripFallbackIds map cleaned].
    rewrite Hstrip. cbn [fst snd].
    pose proof (whitespaceText_space Hws) as Hw.
    unfold trimWhitespace.
    cbn [dropWhile]. rewrite !Hw.
    change (whitespaceText whitespaceClass (Element "P" [] [X])) with false.
    cbn [rev app dropWhile]. rewrite !Hw.
    reflexivity.
Qed.

(** C3. After the whitespace is trimmed, [filterRendering] unwraps exactly
    when one node is left and it is a paragraph (an element that the
    document names [P], or [p]), and the result is then the children of
    that paragraph; otherwise the trimmed sequence is the result.
    [" ", <p>X</p>, " "] yields [X] (when the space is whitespace and the
    cleaning leaves the paragraph as it is), and two paragraphs stay two
    paragraphs. *)
Theorem filterRendering_unwraps_single_paragraph :
  (forall nodes out : list Node,
      FR nodes = Ok out ->
      exists kept,
        dropAutoGenerated nodes = Ok kept /\
        let rest := trimWhitespace whitespaceClass
                      (stripFallbackIds stripParsoidFallbackIds kept) in
        ((exists t a c,
             rest = [Element t a c] /\
             (t = "P"%string \/ t = "p"%string) /\ out = c) \/
         ((forall a c, rest <> [Element "P" a c] /\ rest <> [Element "p" a c]) /\
          out = rest))) /\
  (forall (t : string) (X : Node),
      t = "P"%string \/ t = "p"%string ->
      whitespaceClass " "%char = true ->
      stripParsoidFallbackIds t [] [X] = ([], [X]) ->
      FR [Text " "; Element t [] [X]; Text " "] = Ok [X]) /\
  (forall (t : string) (A B : Node),
      t = "P"%string \/ t = "p"%string ->
      FR [Element t [] [A]; Element t [] [B]]
      = Ok [Element t (fst (stripParsoidFallbackIds t [] [A]))
                      (snd (stripParsoidFallbackIds t [] [A]));
            Element t (fst (stripParsoidFallbackIds t [] [B]))
                      (snd (stripParsoidFallbackIds t [] [B]))]).
Proof.
  split; [|split].
  - intros nodes out H.
    rewrite filterRendering_is_pipeline in H. unfold pipeline in H.
    destruct (dropAutoGenerated nodes) as [kept|e]; [|discriminate].
    exists kept. split; [reflexivity|].
    cbn [bind] in H. injection H as <-.
    cbv zeta.
    destruct (trimWhitespace _ _) as [|n [|m r]].
    + right. split; [split; discriminate|reflexivity].
    + destruct n as [t a c | d | d].
      * cbn [unwrapParagraph isParagraph childNodes].
        destruct (String.eqb_spec t "P") as [EP|EP];
          [|destruct (String.eqb_spec t "p") as [Ep|Ep]]; cbn [orb].
        -- left. exists t, a, c. now repeat split; try left.
        -- left. exists t, a, c. now repeat split; try right.
        -- right. split; [|reflexivity].
           intros a' c'. split; intros H'; injection H' as H' _ _; congruence.
      * right. split; [split; discriminate|reflexivity].
      * right. split; [split; discriminate|reflexivity].
    + right. split; [split; discriminate|reflexivity].
  - intros t X Ht Hws Hstrip.
    rewrite filterRendering_is_pipeline. unfold pipeline.
    cbn [dropAutoGenerated readableDataMw flaggedAutoGenerated lookupAttribute bind
         stripFallbackIds map cleaned].
    rewrite Hstrip. cbn [fst snd].
    pose proof (whitespaceText_space Hws) as Hw.
    unfold trimWhitespace.
    cbn [dropWhile]. rewrite Hw.
    change (whitespaceText whitespaceClass (Element t [] [X])) with false.
    cbn [rev app dropWhile]. rewrite Hw.
    cbn [rev app unwrapParagraph isParagraph childNodes].
    destruct Ht as [-> | ->]; reflexivity.
  - intros t A B Ht.
    rewrite filterRendering_is_pipeline. unfold pipeline.
    cbn [dropAutoGenerated readableDataMw flaggedAutoGenerated lookupAttribute bind
         stripFallbackIds map cleaned].
    reflexivity.
Qed.

(** C4, amended.  [filterRendering] returns a result on every input whose
    top-level [data-mw] attributes hold JSON, and then exactly the
    elements flagged as auto-generated are dropped; on an input with a
    top-level [data-mw] that is not JSON it throws a [SyntaxError]. *)
Theorem filterRendering_total_on_readable_dataMw (nodes : list Node) :
  (forallb readableDataMw nodes = true ->
   FR nodes =
   Ok (unwrapParagraph
         (trimWhitespace whitespaceClass
            (stripFallbackIds stripParsoidFallbackIds
               (filter (fun n => negb (flaggedAutoGenerated n)) nodes))))) /\
  (forallb readableDataMw nodes = false -> FR nodes = Throw SyntaxError).
Proof.
  split; intros H; rewrite filterRendering_is_pipeline; unfold pipeline.
  - now rewrite (dropAutoGenerated_readable nodes H).
  - now rewrite (dropAutoGenerated_unreadable nodes H).
Qed.

End FilterRenderingClaims.

(** ** getDescription and getDescriptionDom *)

Lemma append_assoc (a b c : string) : ((a ++ b) ++ c = a ++ (b ++ c))%string.
Proof.
  induction a as [|x a IH]; [reflexivity|].
  simpl. now rewrite IH.
Qed.

Lemma mapM_app {A B : Type} (f : A -> Result B) (l1 l2 : list A) :
  mapM f (l1 ++ l2) =
  (r1 <- mapM f l1 ;; r2 <- mapM f l2 ;; Ok (r1 ++ r2)).
Proof.
  induction l1 as [|a r IH]; simpl.
  - now destruct (mapM f l2).
  - destruct (f a); simpl; [|reflexivity].
    rewrite IH.
    destruct (mapM f r); simpl; [|reflexivity].
    now destruct (mapM f l2).
Qed.

Section DescriptionFacts.

Variable Title : Type.
Variable newFromText : string -> option Title.
Variable getRelativeText : Title -> Z -> string.
Variable getUrl : Title -> string.
Variable templateNamespace : Z.
Variable commaSeparator : string.

Local Abbreviation describe :=
  (describePart Title newFromText getRelativeText templateNamespace).
Local Abbreviation describeDom :=
  (describePartDom Title newFromText getRelativeText getUrl templateNamespace).
Local Abbreviation entry :=
  (partEntry Title newFromText getRelativeText templateNamespace).
Local Abbreviation entryDom :=
  (partEntryDom Title newFromText getRelativeText getUrl templateNamespace).
Local Abbreviation GD :=
  (getDescription Title newFromText getRelativeText templateNamespace commaSeparator).
Local Abbreviation GDD :=
  (getDescriptionDom Title newFromText getRelativeText getUrl templateNamespace
                     commaSeparator).
Local Abbreviation resolvable' := (resolvable Title newFromText).
Local Abbreviation namedTitles' :=
  (namedTitles Title newFromText getRelativeText templateNamespace).

(** [join] writes what [String.concat] writes. *)
Lemma joinFrom_concat (sep : string) (l : list string) :
  forall (k : nat) (R : string),
    l <> [] ->
    joinFrom k sep l R =
    ((if (k =? 0)%nat then R else R ++ sep) ++ String.concat sep l)%string.
Proof.
  induction l as [|x r IH]; intros k R Hne; [congruence|].
  cbn [joinFrom].
  destruct r as [|y r'].
  - reflexivity.
  - rewrite IH by discriminate.
    cbn [Nat.eqb String.concat].
    now rewrite !append_assoc.
Qed.

Lemma join_concat (sep : string) (l : list string) :
  join sep l = String.concat sep l.
Proof.
  destruct l as [|x r]; [reflexivity|].
  unfold join. now rewrite joinFrom_concat by discriminate.
Qed.

Lemma resolvable_cons (p : Part) (r : list Part) :
  resolvable' (p :: r) -> resolvable' r.
Proof.
  intros H part page Hin. apply H. now right.
Qed.

Lemma namedTitles_cons (p : Part) (r : list Part) :
  namedTitles' (p :: r) -> namedTitles' r.
Proof.
  intros H part page title Hin. apply H. now right.
Qed.

(** The descriptions that survive the filter are the entries of the
    parts. *)
Lemma descriptions_are_entries (parts : list Part) :
  resolvable' parts -> namedTitles' parts ->
  exists descs,
    mapM describe parts = Ok descs /\
    filter nonEmpty descs = flat_map entry parts.
Proof.
  induction parts as [|p r IH]; intros Hres Hnamed.
  - now exists [].
  - destruct (IH (resolvable_cons _ _ Hres) (namedTitles_cons _ _ Hnamed))
      as [descs [Hmap Hfilter]].
    cbn [mapM flat_map]. rewrite Hmap.
    unfold describePart, partEntry.
    destruct (truthyString (templatePage p)) as [page|] eqn:Epage.
    + destruct (newFromText page) as [title|] eqn:Etitle.
      * exists (getRelativeText title templateNamespace :: descs).
        split; [reflexivity|].
        cbn [filter].
        assert (Hne : getRelativeText title templateNamespace <> "")
          by (apply (Hnamed p page title); [now left|assumption|assumption]).
        destruct (getRelativeText title templateNamespace); [congruence|].
        cbn [nonEmpty app]. now rewrite Hfilter.
      * exfalso. apply (Hres p page); [now left|assumption|assumption].
    + destruct (truthyString (template p)) as [name|] eqn:Ename.
      * exists (name :: descs). split; [reflexivity|].
        cbn [filter].
        destruct name as [|c name'].
        -- destruct (template p) as [[|]|]; discriminate.
        -- cbn [nonEmpty app]. now rewrite Hfilter.
      * exists (""%string :: descs). split; [reflexivity|].
        cbn [filter nonEmpty app]. exact Hfilter.
Qed.

(** A part with neither a page nor a name leaves no trace, whatever the
    other parts are. *)
Lemma getDescription_skips_empty_part (parts1 parts2 : list Part) (w : string)
      (d : nat) (h : option nat) :
  GD (mkModel (parts1 ++ mkPart None None :: parts2) w d h) =
  GD (mkModel (parts1 ++ parts2) w d h).
Proof.
  unfold getDescription. cbn [getPartsList].
  rewrite !mapM_app. cbn [mapM].
  change (describe (mkPart None None)) with (@Ok string ""%string).
  destruct (mapM describe parts1) as [d1|]; [|reflexivity].
  cbn [bind].
  destruct (mapM describe parts2) as [d2|]; [|reflexivity].
  cbn [bind].
  now rewrite !filter_app.
Qed.

End DescriptionFacts.

Lemma separated_cons {A : Type} (sep x : A) (l : list A) :
  separated sep (x :: l) = x :: flat_map (fun n => [sep; n]) l.
Proof.
  revert x. induction l as [|y r IH]; intros x; [reflexivity|].
  change (separated sep (x :: y :: r)) with (x :: sep :: separated sep (y :: r)).
  now rewrite IH.
Qed.

Lemma map_separated {A B : Type} (f : A -> B) (sep : A) (l : list A) :
  map f (separated sep l) = separated (f sep) (map f l).
Proof.
  destruct l as [|x r]; [reflexivity|].
  cbn [map]. rewrite !separated_cons. cbn [map]. f_equal.
  induction r as [|y r IH]; [reflexivity|].
  cbn [flat_map map app]. now rewrite IH.
Qed.

Section DescriptionClaims.

Variable Title : Type.
Variable newFromText : string -> option Title.
Variable getRelativeText : Title -> Z -> string.
Variable getUrl : Title -> string.
Variable templateNamespace : Z.
Variable commaSeparator : string.

Local Abbreviation describeDom :=
  (describePartDom Title newFromText getRelativeText getUrl templateNamespace).
Local Abbreviation entry :=
  (partEntry Title newFromText getRelativeText templateNamespace).
Local Abbreviation entryDom :=
  (partEntryDom Title newFromText getRelativeText getUrl templateNamespace).
Local Abbreviation GD :=
  (getDescription Title newFromText getRelativeText templateNamespace commaSeparator).
Local Abbreviation GDD :=
  (getDescriptionDom Title newFromText getRelativeText getUrl templateNamespace
                     commaSeparator).
Local Abbreviation resolvable' := (resolvable Title newFromText).
Local Abbreviation namedTitles' :=
  (namedTitles Title newFromText getRelativeText templateNamespace).

(** The [forEach] of [getDescriptionDom] puts one separator between two
    neighbours. *)
Lemma appendFrom_spec (nodes : list Node) :
  forall (i : nat) (kids : list Node),
    appendFrom commaSeparator i nodes kids =
    kids ++ (if (i =? 0)%nat
             then separated (Text commaSeparator) nodes
             else flat_map (fun n => [Text commaSeparator; n]) nodes).
Proof.
  induction nodes as [|x r IH]; intros i kids.
  - cbn [appendFrom]. destruct (i =? 0)%nat; now rewrite app_nil_r.
  - cbn [appendFrom]. rewrite IH. cbn [Nat.eqb].
    destruct (i =? 0)%nat.
    + rewrite separated_cons. now rewrite <- app_assoc.
    + cbn [flat_map]. now rewrite <- !app_assoc.
Qed.

Lemma targetLinks_createLink (text href : string) :
  targetLinks (createLink text href) = newWindowLink text href.
Proof.
  unfold createLink, newWindowLink. now destruct text.
Qed.

Lemma dom_entries (parts : list Part) :
  resolvable' parts ->
  exists mapped,
    mapM describeDom parts = Ok mapped /\
    map targetLinks (filterNodes mapped) = flat_map entryDom parts.
Proof.
  induction parts as [|p r IH]; intros Hres.
  - now exists [].
  - destruct (IH (resolvable_cons _ _ _ _ Hres)) as [mapped [Hmap Hfilter]].
    cbn [mapM flat_map]. rewrite Hmap.
    unfold describePartDom, partEntryDom.
    destruct (truthyString (templatePage p)) as [page|] eqn:Epage.
    + destruct (newFromText page) as [title|] eqn:Etitle.
      * eexists. split; [reflexivity|].
        cbn [filterNodes map app].
        now rewrite targetLinks_createLink, Hfilter.
      * exfalso. apply (Hres p page); [now left|assumption|assumption].
    + destruct (truthyString (template p)) as [name|].
      * eexists. split; [reflexivity|].
        cbn [filterNodes map app targetLinks]. now rewrite Hfilter.
      * eexists. split; [reflexivity|].
        cbn [filterNodes app]. exact Hfilter.
Qed.

(** A [templatePage] that is no title makes both descriptions throw. *)
Lemma describe_unresolvable_throws (parts : list Part) (part : Part) (page : string) :
  In part parts ->
  truthyString (templatePage part) = Some page ->
  newFromText page = None ->
  forall (w : string) (d : nat) (h : option nat),
    GD (mkModel parts w d h) = Throw TypeError /\
    GDD (mkModel parts w d h) = Throw TypeError.
Proof.
  intros Hin Hpage Hnone w d h.
  unfold getDescription, getDescriptionDom. cbn [getPartsList].
  assert (H1 : mapM (describePart Title newFromText getRelativeText templateNamespace)
                    parts = Throw TypeError).
  { induction parts as [|p r IH]; [contradiction|].
    cbn [mapM].
    destruct (describePart Title newFromText getRelativeText templateNamespace p)
      as [s0|e] eqn:E.
    - destruct Hin as [->|Hin].
      + unfold describePart in E. rewrite Hpage, Hnone in E. discriminate.
      + cbn [bind]. now rewrite (IH Hin).
    - unfold describePart in E.
      destruct (truthyString (templatePage p)) as [pg|].
      + destruct (newFromText pg); [discriminate|]. injection E as E. now subst e.
      + destruct (truthyString (template p)); discriminate. }
  assert (H2 : mapM describeDom parts = Throw TypeError).
  { clear H1. induction parts as [|p r IH]; [contradiction|].
    cbn [mapM].
    destruct (describeDom p) as [s0|e] eqn:E.
    - destruct Hin as [->|Hin].
      + unfold describePartDom in E. rewrite Hpage, Hnone in E. discriminate.
      + cbn [bind]. now rewrite (IH Hin).
    - unfold describePartDom in E.
      destruct (truthyString (templatePage p)) as [pg|].
      + destruct (newFromText pg); [discriminate|]. injection E as E. now subst e.
      + destruct (truthyString (template p)); discriminate. }
  now rewrite H1, H2.
Qed.

(** The descriptions that survive the filter are the entries of the
    parts that are not empty. *)
Lemma descriptions_filtered (parts : list Part) :
  resolvable' parts ->
  exists descs,
    mapM (describePart Title newFromText getRelativeText templateNamespace) parts
    = Ok descs /\
    filter nonEmpty descs = filter nonEmpty (flat_map entry parts).
Proof.
  induction parts as [|p r IH]; intros Hres.
  - now exists [].
  - destruct (IH (resolvable_cons _ _ _ _ Hres)) as [descs [Hmap Hfilter]].
    cbn [mapM flat_map]. rewrite Hmap, filter_app.
    unfold describePart, partEntry.
    destruct (truthyString (templatePage p)) as [page|] eqn:Epage.
    + destruct (newFromText page) as [title|] eqn:Etitle.
      * eexists. split; [reflexivity|].
        cbn [filter]. rewrite Hfilter.
        now destruct (nonEmpty (getRelativeText title templateNamespace)).
      * exfalso. apply (Hres p page); [now left|assumption|assumption].
    + destruct (truthyString (template p)) as [name|] eqn:Ename.
      * eexists. split; [reflexivity|].
        cbn [filter]. rewrite Hfilter. now destruct (nonEmpty name).
      * eexists. split; [reflexivity|].
        cbn [filter nonEmpty app]. exact Hfilter.
Qed.

(** C5, amended.  When every [templatePage] of the parts is a title, the
    plain-text description maps each part with a [templatePage] to the
    display name of its title relative to the template namespace, each
    part with only a template name to that name, leaves out the parts with
    neither and the names that are empty, and joins what is left with the
    comma separator; a part that is left out leaves no separator.  The
    parts [{templatePage:"Foo"}, {template:"bar"}, {}] describe as
    "Foo, bar".  A [templatePage] that is no title makes [getDescription]
    throw a [TypeError]. *)
Theorem getDescription_joins_entries :
  (forall model : Model,
      resolvable' (getPartsList model) ->
      GD model =
      Ok (String.concat commaSeparator
            (filter nonEmpty (flat_map entry (getPartsList model))))) /\
  (forall (parts1 parts2 : list Part) (w : string) (d : nat) (h : option nat),
      GD (mkModel (parts1 ++ mkPart None None :: parts2) w d h) =
      GD (mkModel (parts1 ++ parts2) w d h)) /\
  (forall (title : Title) (w : string) (d : nat) (h : option nat),
      newFromText "Foo" = Some title ->
      getRelativeText title templateNamespace = "Foo"%string ->
      commaSeparator = ", "%string ->
      GD (mkModel [mkPart (Some "Foo"%string) None;
                   mkPart None (Some "bar"%string);
                   mkPart None None] w d h)
      = Ok "Foo, bar"%string) /\
  (forall (model : Model) (part : Part) (page : string),
      In part (getPartsList model) ->
      truthyString (templatePage part) = Some page ->
      newFromText page = None ->
      GD model = Throw TypeError).
Proof.
  split; [|split; [|split]].
  - intros model Hres.
    destruct (descriptions_filtered _ Hres) as [descs [Hmap Hfilter]].
    unfold getDescription. rewrite Hmap. cbn [bind].
    now rewrite join_concat, Hfilter.
  - apply getDescription_skips_empty_part.
  - intros title w d h Htitle Hname Hsep.
    unfold getDescription, describePart.
    cbn [getPartsList mapM templatePage template truthyString].
    rewrite Htitle, Hname, Hsep. reflexivity.
  - intros [parts w d h] part page Hin Hpage Hnone.
    now apply (describe_unresolvable_throws parts part page).
Qed.

(** C6, amended.  When every [templatePage] of the parts is a title, the
    rich description is one [span] that holds, for each part with a
    [templatePage], a link to the page of the template that opens in a new
    window, and for each part with only a template name a text node, with
    one separator text between two neighbours; a part with neither gives
    no node and no separator.  A [templatePage] that is no title makes
    [getDescriptionDom] throw a [TypeError]. *)
Theorem getDescriptionDom_links_entries :
  (forall model : Model,
      resolvable' (getPartsList model) ->
      GDD model =
      Ok (Element "span" []
            (separated (Text commaSeparator)
                       (flat_map entryDom (getPartsList model))))) /\
  (forall (title : Title) (w : string) (d : nat) (h : option nat),
      newFromText "Foo" = Some title ->
      getRelativeText title templateNamespace = "Foo"%string ->
      GDD (mkModel [mkPart (Some "Foo"%string) None;
                    mkPart None (Some "bar"%string);
                    mkPart None None] w d h)
      = Ok (Element "span" []
              [Element "a" [("href", getUrl title); ("target", "_blank")]
                       [Text "Foo"];
               Text commaSeparator;
               Text "bar"])) /\
  (forall (model : Model) (part : Part) (page : string),
      In part (getPartsList model) ->
      truthyString (templatePage part) = Some page ->
      newFromText page = None ->
      GDD model = Throw TypeError).
Proof.
  assert (Hmain : forall model : Model,
      resolvable' (getPartsList model) ->
      GDD model =
      Ok (Element "span" []
            (separated (Text commaSeparator)
                       (flat_map entryDom (getPartsList model))))).
  { intros model Hres.
    destruct (dom_entries _ Hres) as [mapped [Hmap Hfilter]].
    unfold getDescriptionDom. rewrite Hmap. cbn [bind targetLinksToNewWindow].
    rewrite appendFrom_spec. cbn [Nat.eqb app].
    rewrite map_separated. cbn [targetLinks].
    now rewrite Hfilter. }
  split; [exact Hmain|]. split.
  - intros title w d h Htitle Hname.
    rewrite Hmain.
    + cbn [getPartsList flat_map]. unfold partEntryDom.
      cbn [templatePage template truthyString].
      rewrite Htitle, Hname. reflexivity.
    + intros part page Hin Hpage.
      cbn [getPartsList] in Hin.
      destruct Hin as [<-|[<-|[<-|[]]]]; cbn in Hpage; try discriminate.
      injection Hpage as <-. now rewrite Htitle.
  - intros [parts w d h] part page Hin Hpage Hnone.
    now apply (describe_unresolvable_throws parts part page).
Qed.

Lemma no_entries_plain (parts : list Part) :
  (forall part, In part parts ->
                truthyString (templatePage part) = None /\
                truthyString (template part) = None) ->
  exists descs,
    mapM (describePart Title newFromText getRelativeText templateNamespace) parts
    = Ok descs /\ filter nonEmpty descs = [].
Proof.
  induction parts as [|p r IH]; intros Hnone; [now exists []|].
  destruct IH as [descs [Hmap Hfilter]];
    [intros part Hin; apply Hnone; now right|].
  destruct (Hnone p (or_introl eq_refl)) as [Hpage Hname].
  exists (""%string :: descs).
  cbn [mapM]. rewrite Hmap. unfold describePart. rewrite Hpage, Hname.
  split; [reflexivity|exact Hfilter].
Qed.

Lemma no_entries_rich (parts : list Part) :
  (forall part, In part parts ->
                truthyString (templatePage part) = None /\
                truthyString (template part) = None) ->
  exists mapped,
    mapM describeDom parts = Ok mapped /\ filterNodes mapped = [].
Proof.
  induction parts as [|p r IH]; intros Hnone; [now exists []|].
  destruct IH as [mapped [Hmap Hfilter]];
    [intros part Hin; apply Hnone; now right|].
  destruct (Hnone p (or_introl eq_refl)) as [Hpage Hname].
  exists (None :: mapped).
  cbn [mapM]. rewrite Hmap. unfold describePartDom. rewrite Hpage, Hname.
  split; [reflexivity|exact Hfilter].
Qed.

(** C10, amended.  For a model with no parts, or with parts that all have
    neither a [templatePage] nor a template name, the plain-text
    description is the empty string and the rich description is a [span]
    without children.  A part whose [templatePage] is set and is no title
    makes both descriptions throw a [TypeError]. *)
Theorem descriptions_of_no_entries :
  (forall model : Model,
      (forall part, In part (getPartsList model) ->
                    truthyString (templatePage part) = None /\
                    truthyString (template part) = None) ->
      GD model = Ok ""%string /\ GDD model = Ok (Element "span" [] [])) /\
  (forall (model : Model) (part : Part) (page : string),
      In part (getPartsList model) ->
      truthyString (templatePage part) = Some page ->
      newFromText page = None ->
      GD model = Throw TypeError /\ GDD model = Throw TypeError).
Proof.
  split.
  - intros model Hnone.
    destruct (no_entries_plain _ Hnone) as [descs [Hd Hf]].
    destruct (no_entries_rich _ Hnone) as [mapped [Hm Hn]].
    unfold getDescription, getDescriptionDom.
    rewrite Hd, Hm. cbn [bind]. rewrite Hf, Hn. split; reflexivity.
  - intros [parts w d h] part page Hin Hpage Hnone.
    now apply (describe_unresolvable_throws parts part page).
Qed.

End DescriptionClaims.

(** ** generateContents *)

Lemma getProp_result (response : option Json.value) :
  isNotSuccess (getProp response ["visualeditor"; "result"]) =
  negb (reportsSuccess response).
Proof.
  destruct response as [[| | | | |members]|]; try reflexivity.
  cbn [getProp getKey reportsSuccess].
  destruct (Json.lookup (Json.jstring_of "visualeditor") members)
    as [[| | | | |inner]|]; try reflexivity.
  cbn [getProp getKey].
  destruct (Json.lookup (Json.jstring_of "result") inner) as [[| | |s| |]|];
    reflexivity.
Qed.

Lemma getProp_content (response : option Json.value) :
  reportsSuccess response = true ->
  getProp response ["visualeditor"; "content"] = responseContent response.
Proof.
  destruct response as [[| | | | |members]|]; try discriminate.
  cbn [getProp getKey reportsSuccess responseContent].
  destruct (Json.lookup (Json.jstring_of "visualeditor") members)
    as [[| | | | |inner]|]; try discriminate.
  reflexivity.
Qed.

Section GenerateContentsClaims.

Variable whitespaceClass : ascii -> bool.
Variable stripParsoidFallbackIds :
  string -> list (string * string) -> list Node -> list (string * string) * list Node.
Variable parseHTML : option Json.value -> option nat -> option (list Node).

Local Abbreviation FR := (filterRendering whitespaceClass stripParsoidFallbackIds).
Local Abbreviation deliver' :=
  (deliver whitespaceClass stripParsoidFallbackIds parseHTML).
Local Abbreviation deliverAll' :=
  (deliverAll whitespaceClass stripParsoidFallbackIds parseHTML).

Lemma generateContents_fresh (this : option Model) (config : option Config) (c : Call) :
  generateContents this config = Ok c ->
  xhr c = InFlight /\ deferred c = Pending.
Proof.
  unfold generateContents.
  destruct config as [cfg|];
    [destruct (truthyString (cfg_wikitext cfg))|];
    destruct this as [model|]; cbn [bind];
    intros H; try discriminate; injection H as <-; split; reflexivity.
Qed.

Lemma deliver_settled (this : option Model) (c : Call) (e : Event) :
  xhr c = Settled -> deliver' this c e = (c, None).
Proof.
  intros H. unfold deliver. now rewrite H.
Qed.

Lemma deliver_settles (this : option Model) (c : Call) (e : Event) :
  xhr c = InFlight -> xhr (fst (deliver' this c e)) = Settled.
Proof.
  intros H. unfold deliver. rewrite H.
  destruct e; [destruct (onParseSuccess _ _ _ _ _ _)|..]; reflexivity.
Qed.

Lemma deliverAll_settled (this : option Model) (es : list Event) :
  forall c, xhr c = Settled -> deliverAll' this c es = c.
Proof.
  induction es as [|e r IH]; intros c H; [reflexivity|].
  cbn [deliverAll]. rewrite (deliver_settled this c e H). cbn [fst].
  now apply IH.
Qed.

(** The first event decides: whatever comes later changes nothing. *)
Lemma first_event_decides (this : option Model) (c : Call) (e : Event)
      (es : list Event) :
  xhr c = InFlight ->
  deliverAll' this c (e :: es) = fst (deliver' this c e).
Proof.
  intros H. cbn [deliverAll].
  apply deliverAll_settled. now apply deliver_settles.
Qed.

Lemma deliver_response (this : option Model) (c : Call)
      (response : option Json.value) :
  xhr c = InFlight -> deferred c = Pending ->
  deliver' this c (NetDone response) =
  if reportsSuccess response then
    match FR (parsedContent parseHTML this response) with
    | Ok nodes => (settled c (Resolved nodes), None)
    | Throw ex => (settled c Pending, Some ex)
    end
  else (settled c Rejected, None).
Proof.
  intros Hx Hd. unfold deliver, onParseSuccess. rewrite Hx, Hd.
  rewrite getProp_result.
  destruct (reportsSuccess response) eqn:E; cbn [negb]; [|reflexivity].
  rewrite (getProp_content response E).
  unfold parsedContent.
  destruct (FR _); reflexivity.
Qed.

(** C2, amended.  The deferred of a [generateContents] call is resolved
    with the filtered nodes when the response reports success and
    [filterRendering] returns; it is rejected, with no payload, when the
    response does not report success or the request fails; when the
    response reports success and [filterRendering] throws, the deferred
    stays pending and the exception leaves the callback.  It is resolved in
    no other way. *)
Theorem generateContents_outcome (this : option Model) (config : option Config)
        (c : Call) :
  generateContents this config = Ok c ->
  (forall response es,
      deliverAll' this c (NetDone response :: es) =
      if reportsSuccess response then
        match FR (parsedContent parseHTML this response) with
        | Ok nodes => settled c (Resolved nodes)
        | Throw _ => settled c Pending
        end
      else settled c Rejected) /\
  (forall response ex,
      reportsSuccess response = true ->
      FR (parsedContent parseHTML this response) = Throw ex ->
      snd (deliver' this c (NetDone response)) = Some ex) /\
  (forall es, deliverAll' this c (NetFail :: es) = settled c Rejected) /\
  (forall es nodes,
      deferred (deliverAll' this c es) = Resolved nodes ->
      exists response rest,
        es = NetDone response :: rest /\
        reportsSuccess response = true /\
        FR (parsedContent parseHTML this response) = Ok nodes).
Proof.
  intros Hgen.
  destruct (generateContents_fresh _ _ _ Hgen) as [Hx Hd].
  assert (Hdone : forall response es,
      deliverAll' this c (NetDone response :: es) =
      if reportsSuccess response then
        match FR (parsedContent parseHTML this response) with
        | Ok nodes => settled c (Resolved nodes)
        | Throw _ => settled c Pending
        end
      else settled c Rejected).
  { intros response es.
    rewrite first_event_decides by exact Hx.
    rewrite deliver_response by assumption.
    destruct (reportsSuccess response); [|reflexivity].
    now destruct (FR _). }
  assert (Hfail : forall e es, e = NetFail \/ e = Abort ->
      deliverAll' this c (e :: es) = settled c Rejected).
  { intros e es He.
    rewrite first_event_decides by exact Hx.
    unfold deliver. rewrite Hx, Hd.
    destruct He as [-> | ->]; reflexivity. }
  split; [exact Hdone|]. split; [|split].
  - intros response ex Hs Hthrow.
    rewrite deliver_response by assumption.
    now rewrite Hs, Hthrow.
  - intros es. apply Hfail. now left.
  - intros es nodes Hres.
    destruct es as [|e rest].
    + cbn [deliverAll] in Hres. congruence.
    + destruct e as [response| |].
      * exists response, rest. split; [reflexivity|].
        rewrite Hdone in Hres.
        destruct (reportsSuccess response); [|discriminate].
        split; [reflexivity|].
        destruct (FR _) as [nodes'|ex]; [|discriminate].
        cbn [settled deferred] in Hres. congruence.
      * rewrite Hfail in Hres by now left. discriminate.
      * rewrite Hfail in Hres by now right. discriminate.
Qed.

(** C8.  The promise of a [generateContents] call carries [xhr.abort].
    Once it has been called the request is settled, nothing that comes
    later changes the deferred, a deferred that was pending with its
    request under way is rejected, and a deferred found resolved after an
    abort was resolved before it. *)
Theorem abort_never_resolves (this : option Model) (config : option Config)
        (c : Call) (before after : list Event) :
  generateContents this config = Ok c ->
  let c1 := deliverAll' this c before in
  let c2 := fst (deliver' this c1 Abort) in
  xhr c2 = Settled /\
  deliverAll' this c (before ++ Abort :: after) = c2 /\
  (xhr c1 = InFlight -> deferred c2 = Rejected) /\
  (forall nodes,
      deferred (deliverAll' this c (before ++ Abort :: after)) = Resolved nodes ->
      deferred c1 = Resolved nodes).
Proof.
  intros Hgen c1 c2.
  destruct (generateContents_fresh _ _ _ Hgen) as [Hx Hd].
  assert (Happ : forall es1 es2 c0,
             deliverAll' this c0 (es1 ++ es2) =
             deliverAll' this (deliverAll' this c0 es1) es2).
  { induction es1 as [|e r IH]; intros es2 c0; [reflexivity|].
    cbn [app deliverAll]. apply IH. }
  assert (Hsettled : xhr c2 = Settled).
  { subst c2. destruct (xhr c1) eqn:E.
    - now apply deliver_settles.
    - now rewrite deliver_settled. }
  assert (Hall : deliverAll' this c (before ++ Abort :: after) = c2).
  { rewrite Happ. fold c1. cbn [deliverAll]. fold c2.
    now apply deliverAll_settled. }
  assert (Hpending : forall es, xhr (deliverAll' this c es) = InFlight ->
                                deferred (deliverAll' this c es) = Pending).
  { intros es. destruct es as [|e r]; [intros _; exact Hd|].
    rewrite first_event_decides by exact Hx.
    now rewrite deliver_settles. }
  split; [exact Hsettled|]. split; [exact Hall|]. split.
  - intros Hfly. subst c2. unfold deliver. rewrite Hfly.
    cbn [fst deferred]. unfold onParseError.
    subst c1. now rewrite (Hpending before Hfly).
  - intros nodes. rewrite Hall. subst c2.
    destruct (xhr c1) eqn:E.
    + unfold deliver. rewrite E. cbn [fst deferred]. unfold onParseError.
      subst c1. rewrite (Hpending before E). discriminate.
    + now rewrite deliver_settled.
Qed.

End GenerateContentsClaims.

(** ** The model is only read *)

Section HeapClaims.

Variable ModelObject : Type.
Variable obj_getPartsList : ModelObject -> list Part * ModelObject.
Variable obj_getWikitext : ModelObject -> string * ModelObject.
Variable obj_getDocument : ModelObject -> nat * ModelObject.
Variable obj_getHtmlDocument : ModelObject -> option nat * ModelObject.
Variable Title : Type.
Variable newFromText : string -> option Title.
Variable getRelativeText : Title -> Z -> string.
Variable getUrl : Title -> string.
Variable templateNamespace : Z.
Variable commaSeparator : string.
Variable whitespaceClass : ascii -> bool.
Variable stripParsoidFallbackIds :
  string -> list (string * string) -> list Node -> list (string * string) * list Node.
Variable parseHTML : option Json.value -> option nat -> option (list Node).

Local Abbreviation through :=
  (throughMethods ModelObject obj_getPartsList obj_getWikitext obj_getDocument
                  obj_getHtmlDocument).
Local Abbreviation readOnly :=
  (readOnlyMethods ModelObject obj_getPartsList obj_getWikitext obj_getDocument
                   obj_getHtmlDocument).
Local Abbreviation perform' :=
  (perform ModelObject obj_getPartsList obj_getWikitext obj_getDocument
           obj_getHtmlDocument Title newFromText getRelativeText getUrl
           templateNamespace commaSeparator whitespaceClass stripParsoidFallbackIds
           parseHTML).
Local Abbreviation thisModel' :=
  (thisModel ModelObject obj_getPartsList obj_getWikitext obj_getDocument
             obj_getHtmlDocument).
Local Abbreviation run' :=
  (run ModelObject obj_getPartsList obj_getWikitext obj_getDocument
       obj_getHtmlDocument Title newFromText getRelativeText getUrl
       templateNamespace commaSeparator whitespaceClass stripParsoidFallbackIds
       parseHTML).

Local Abbreviation frames :=
  (frames ModelObject obj_getPartsList obj_getWikitext obj_getDocument
          obj_getHtmlDocument).

Lemma through_trans (a b c : ModelObject) :
  through a b -> through b c -> through a c.
Proof.
  intros Hab Hbc. induction Hbc; [exact Hab| | | |]; constructor; now apply IHHbc.
Qed.

Lemma frames_ret {A : Type} (a : A) : frames (ret _ a).
Proof. intros h. split; [reflexivity|constructor]. Qed.

Lemma frames_liftR {A : Type} (r : Result A) : frames (liftR _ r).
Proof. intros h. split; [reflexivity|constructor]. Qed.

Lemma frames_needModel : frames (needModel _).
Proof.
  intros h. unfold needModel.
  destruct (h_this_model _ h) eqn:E; cbn [snd]; split; try exact E; constructor.
Qed.

Lemma frames_pushCall (c : Call) : frames (pushCall _ c).
Proof. intros h. split; [reflexivity|constructor]. Qed.

Lemma frames_putCall (handle : nat) (c : Call) : frames (putCall _ handle c).
Proof. intros h. split; [reflexivity|constructor]. Qed.

Lemma frames_bindP {A B : Type} (m : Prog ModelObject A)
      (k : A -> Prog ModelObject B) :
  frames m -> (forall a, frames (k a)) -> frames (bindP _ m k).
Proof.
  intros Hm Hk h. unfold bindP.
  destruct (Hm h) as [H1 H2].
  destruct (m h) as [[a|e] h']; cbn [snd] in *.
  - destruct (Hk a h') as [H3 H4].
    split; [congruence|]. now apply (through_trans _ _ _ H2).
  - now split.
Qed.

Lemma frames_getPartsList : frames (callModel _ obj_getPartsList).
Proof.
  intros h. unfold callModel.
  pose proof (tm_getPartsList ModelObject obj_getPartsList obj_getWikitext
                obj_getDocument obj_getHtmlDocument _ _ (tm_same _ _ _ _ _ (h_object _ h)))
    as H.
  destruct (obj_getPartsList (h_object _ h)) as [b o].
  split; [reflexivity|exact H].
Qed.

Lemma frames_getWikitext : frames (callModel _ obj_getWikitext).
Proof.
  intros h. unfold callModel.
  pose proof (tm_getWikitext ModelObject obj_getPartsList obj_getWikitext
                obj_getDocument obj_getHtmlDocument _ _ (tm_same _ _ _ _ _ (h_object _ h)))
    as H.
  destruct (obj_getWikitext (h_object _ h)) as [b o].
  split; [reflexivity|exact H].
Qed.

Lemma frames_getDocument : frames (callModel _ obj_getDocument).
Proof.
  intros h. unfold callModel.
  pose proof (tm_getDocument ModelObject obj_getPartsList obj_getWikitext
                obj_getDocument obj_getHtmlDocument _ _ (tm_same _ _ _ _ _ (h_object _ h)))
    as H.
  destruct (obj_getDocument (h_object _ h)) as [b o].
  split; [reflexivity|exact H].
Qed.

Lemma frames_getHtmlDocument : frames (callModel _ obj_getHtmlDocument).
Proof.
  intros h. unfold callModel.
  pose proof (tm_getHtmlDocument ModelObject obj_getPartsList obj_getWikitext
                obj_getDocument obj_getHtmlDocument _ _ (tm_same _ _ _ _ _ (h_object _ h)))
    as H.
  destruct (obj_getHtmlDocument (h_object _ h)) as [b o].
  split; [reflexivity|exact H].
Qed.

Lemma frames_getDescriptionP :
  frames (getDescriptionP ModelObject obj_getPartsList Title newFromText
                          getRelativeText templateNamespace commaSeparator).
Proof.
  unfold getDescriptionP.
  apply frames_bindP; [apply frames_needModel|intros _].
  apply frames_bindP; [apply frames_getPartsList|intros parts].
  apply frames_liftR.
Qed.

Lemma frames_getDescriptionDomP :
  frames (getDescriptionDomP ModelObject obj_getPartsList Title newFromText
                             getRelativeText getUrl templateNamespace
                             commaSeparator).
Proof.
  unfold getDescriptionDomP.
  apply frames_bindP; [apply frames_needModel|intros _].
  apply frames_bindP; [apply frames_getPartsList|intros parts].
  apply frames_liftR.
Qed.

Lemma frames_generateContentsP (config : option Config) :
  frames (generateContentsP ModelObject obj_getWikitext obj_getDocument config).
Proof.
  unfold generateContentsP.
  apply frames_bindP.
  - destruct config as [cfg|];
      [destruct (truthyString (cfg_wikitext cfg)); [apply frames_ret|]|];
      (apply frames_bindP; [apply frames_needModel|intros _; apply frames_getWikitext]).
  - intros wikitext.
    apply frames_bindP; [apply frames_needModel|intros _].
    apply frames_bindP; [apply frames_getDocument|intros doc].
    apply frames_pushCall.
Qed.

Lemma frames_modelHtmlDocument :
  frames (modelHtmlDocument ModelObject obj_getHtmlDocument).
Proof.
  intros h. unfold modelHtmlDocument.
  destruct (h_this_model _ h) eqn:E.
  - destruct (frames_getHtmlDocument h) as [H1 H2]. split; [congruence|exact H2].
  - cbn [snd]. split; [exact E|constructor].
Qed.

Lemma frames_onParseSuccessP (d : Deferred) (response : option Json.value) :
  frames (onParseSuccessP ModelObject obj_getHtmlDocument whitespaceClass
                          stripParsoidFallbackIds parseHTML d response).
Proof.
  unfold onParseSuccessP.
  destruct (isNotSuccess _); [apply frames_ret|].
  apply frames_bindP; [apply frames_modelHtmlDocument|intros context].
  apply frames_bindP; [apply frames_liftR|intros filtered].
  apply frames_ret.
Qed.

Lemma frames_deliverP (handle : nat) (e : Event) :
  frames (deliverP ModelObject obj_getHtmlDocument whitespaceClass
                   stripParsoidFallbackIds parseHTML handle e).
Proof.
  intros h. unfold deliverP.
  destruct (nth_error (h_calls _ h) handle) as [c|]; [|split; [reflexivity|constructor]].
  destruct (xhr c); [|split; [reflexivity|constructor]].
  destruct e as [response| |]; try (split; [reflexivity|constructor]).
  destruct (frames_onParseSuccessP (deferred c) response h) as [H1 H2].
  destruct (onParseSuccessP _ _ _ _ _ _ _ h) as [[d|ex] h']; cbn [snd] in *;
    split; assumption.
Qed.

(** The programs on the heap return what the functions on the view of
    the model return. *)
Lemma getDescriptionP_result (h : Heap ModelObject) :
  fst (getDescriptionP ModelObject obj_getPartsList Title newFromText
                       getRelativeText templateNamespace commaSeparator h) =
  match thisModel' h with
  | Some model =>
      getDescription Title newFromText getRelativeText templateNamespace
                     commaSeparator model
  | None => Throw TypeError
  end.
Proof.
  unfold getDescriptionP, bindP, needModel, callModel, thisModel, liftR,
    getDescription, view.
  destruct (h_this_model _ h); [|reflexivity].
  cbn [getPartsList]. now destruct (obj_getPartsList (h_object _ h)).
Qed.

Lemma getDescriptionDomP_result (h : Heap ModelObject) :
  fst (getDescriptionDomP ModelObject obj_getPartsList Title newFromText
                          getRelativeText getUrl templateNamespace
                          commaSeparator h) =
  match thisModel' h with
  | Some model =>
      getDescriptionDom Title newFromText getRelativeText getUrl templateNamespace
                        commaSeparator model
  | None => Throw TypeError
  end.
Proof.
  unfold getDescriptionDomP, bindP, needModel, callModel, thisModel, liftR,
    getDescriptionDom, view.
  destruct (h_this_model _ h); [|reflexivity].
  cbn [getPartsList]. now destruct (obj_getPartsList (h_object _ h)).
Qed.

Lemma generateContentsP_result (config : option Config) (h : Heap ModelObject) :
  readOnly ->
  match generateContents (thisModel' h) config with
  | Ok c =>
      generateContentsP ModelObject obj_getWikitext obj_getDocument config h =
      (Ok (List.length (h_calls _ h)),
       mkHeap _ (h_object _ h) (h_this_model _ h) (h_calls _ h ++ [c]))
  | Throw ex =>
      generateContentsP ModelObject obj_getWikitext obj_getDocument config h =
      (Throw ex, h)
  end.
Proof.
  intros [_ [Hw [Hd _]]].
  unfold generateContentsP, generateContents, thisModel, bindP, needModel,
    callModel, ret, pushCall, view.
  specialize (Hw (h_object _ h)). specialize (Hd (h_object _ h)).
  destruct h as [o b calls]. cbn [h_object h_this_model h_calls] in *.
  destruct (obj_getWikitext o) as [w o1] eqn:Ew.
  destruct (obj_getDocument o) as [d o2] eqn:Ed.
  cbn [snd fst] in *. subst o1 o2.
  destruct config as [[ow]|]; cbn [cfg_wikitext];
    [destruct (truthyString ow) as [w'|]|]; destruct b;
      cbn [bind getWikitext getDocument h_object h_this_model h_calls];
      rewrite ?Ew; cbn [h_object h_this_model h_calls]; rewrite ?Ed;
        reflexivity.
Qed.

Lemma replaceNth_same {A : Type} (l : list A) :
  forall (i : nat) (a : A), nth_error l i = Some a -> replaceNth i a l = l.
Proof.
  induction l as [|x r IH]; intros [|i] a H; try discriminate.
  - cbn in H. injection H as ->. reflexivity.
  - cbn [replaceNth]. f_equal. now apply IH.
Qed.

Lemma deliverP_result (handle : nat) (e : Event) (h : Heap ModelObject) (c : Call) :
  readOnly ->
  nth_error (h_calls _ h) handle = Some c ->
  deliverP ModelObject obj_getHtmlDocument whitespaceClass stripParsoidFallbackIds
           parseHTML handle e h =
  (Ok (snd (deliver whitespaceClass stripParsoidFallbackIds parseHTML
                    (thisModel' h) c e)),
   mkHeap _ (h_object _ h) (h_this_model _ h)
          (replaceNth handle
             (fst (deliver whitespaceClass stripParsoidFallbackIds parseHTML
                           (thisModel' h) c e))
             (h_calls _ h))).
Proof.
  intros [_ [_ [_ Hh]]] Hc.
  unfold deliverP, deliver. rewrite Hc.
  destruct h as [o b calls]. cbn [h_object h_this_model h_calls] in *.
  destruct (xhr c) eqn:Ex.
  - destruct e as [response| |]; try reflexivity.
    unfold onParseSuccessP, onParseSuccess.
    destruct (isNotSuccess _); [reflexivity|].
    unfold bindP, modelHtmlDocument, callModel, thisModel, view, liftR, ret, putCall.
    cbn [h_object h_this_model h_calls].
    specialize (Hh o).
    destruct b.
    + destruct (obj_getHtmlDocument o) as [ctx o'] eqn:Eh.
      cbn [snd fst getModelHtmlDocument] in *. subst o'.
      destruct (filterRendering _ _ _); reflexivity.
    + destruct (filterRendering _ _ _); reflexivity.
  - cbn [fst snd]. now rewrite (replaceNth_same calls handle c Hc).
Qed.

Lemma perform_frames (op : Operation) (h : Heap ModelObject) :
  h_this_model _ (perform' op h) = h_this_model _ h /\
  through (h_object _ h) (h_object _ (perform' op h)).
Proof.
  destruct op as [| |contentNodes|domElements|config|handle e]; cbn [perform].
  - apply frames_getDescriptionP.
  - apply frames_getDescriptionDomP.
  - apply frames_liftR.
  - apply (frames_ret (filterRenderedDomElements domElements)).
  - apply frames_generateContentsP.
  - apply frames_deliverP.
Qed.

Lemma through_readOnly (a b : ModelObject) :
  readOnly -> through a b -> a = b.
Proof.
  intros [H1 [H2 [H3 H4]]] H.
  induction H; [reflexivity| | | |]; subst; congruence.
Qed.


End HeapClaims.

(** A step of the editor is where the model changes. *)
Lemma editor_step_changes_model (ModelObject : Type)
      (change : ModelObject -> ModelObject) (h : Heap ModelObject) :
  h_object _ (snd (assignObject _ (change (h_object _ h)) h)) = change (h_object _ h) /\
  h_this_model _ (snd (assignThisModel _ false h)) = false.
Proof. split; reflexivity. Qed.

(** ** filterRenderedDomElements *)

Lemma Node_ind' (P : Node -> Prop) :
  (forall t a c, Forall P c -> P (Element t a c)) ->
  (forall d, P (Text d)) ->
  (forall d, P (Comment d)) ->
  forall n, P n.
Proof.
  intros HE HT HC.
  fix IH 1.
  intros [t a c | d | d]; [|apply HT|apply HC].
  apply HE.
  induction c as [|x r IHc]; constructor; [apply IH|exact IHc].
Qed.

Lemma path_eqb_eq (p q : path) : path_eqb p q = true <-> p = q.
Proof.
  revert q. induction p as [|i p IH]; intros [|j q]; cbn [path_eqb];
    try (split; [discriminate|discriminate]); try (split; reflexivity).
  rewrite andb_true_iff, Nat.eqb_eq, IH.
  split; [intros [-> ->]; reflexivity|intros H; injection H as -> ->; now split].
Qed.

Lemma inSet_In (p : path) (l : list path) : inSet p l = true <-> In p l.
Proof.
  unfold inSet. rewrite existsb_exists. split.
  - intros [q [Hin Heq]]. apply path_eqb_eq in Heq. now subst.
  - intros Hin. exists p. split; [exact Hin|now apply path_eqb_eq].
Qed.

Lemma In_insertPath (p q : path) (l : list path) :
  In p (insertPath q l) <-> p = q \/ In p l.
Proof.
  induction l as [|x r IH]; cbn [insertPath].
  - cbn [In]. intuition.
  - destruct (path_eqb q x) eqn:E.
    + apply path_eqb_eq in E. subst x. cbn [In]. intuition.
    + destruct (path_ltb q x); cbn [In]; [intuition|].
      rewrite IH. intuition.
Qed.

Lemma In_uniqueSort (p : path) (l : list path) :
  In p (uniqueSort l) <-> In p l.
Proof.
  induction l as [|x r IH]; [reflexivity|].
  unfold uniqueSort in *. cbn [fold_right In].
  rewrite In_insertPath, IH. intuition.
Qed.

Section Removal.

Variable sel : Node -> bool.

Lemma In_findKids (below : path -> Node -> list path) (here : path) (c : list Node) :
  forall (j : nat) (p : path),
    In p (findKids sel below here j c) <->
    exists k x,
      nth_error c k = Some x /\
      ((p = here ++ [j + k] /\ sel x = true) \/ In p (below (here ++ [j + k]) x)).
Proof.
  induction c as [|y r IH]; intros j p.
  - cbn [findKids In]. split; [tauto|].
    intros [k [x [H _]]]. now destruct k.
  - cbn [findKids]. rewrite !in_app_iff, IH. split.
    + intros [H | [H | [k [x [Hn H]]]]].
      * exists 0%nat, y. rewrite Nat.add_0_r. split; [reflexivity|].
        destruct (sel y); [|contradiction].
        left. destruct H as [<-|[]]. now split.
      * exists 0%nat, y. rewrite Nat.add_0_r. split; [reflexivity|now right].
      * exists (S k), x. replace (j + S k)%nat with (S j + k)%nat by lia.
        now split.
    + intros [[|k] [x [Hn H]]].
      * cbn [nth_error] in Hn. injection Hn as <-.
        rewrite Nat.add_0_r in H.
        destruct H as [[-> Hs] | H]; [left; rewrite Hs; now left|right; now left].
      * right. right. exists k, x.
        replace (S j + k)%nat with (j + S k)%nat by lia. now split.
Qed.

(** What [find] returns lies strictly below the node it started from. *)
Lemma findBelow_shape (n : Node) :
  forall (here p : path),
    In p (findBelow sel here n) -> exists k q, p = here ++ k :: q.
Proof.
  induction n as [t a c IH | d | d] using Node_ind'; intros here p Hin;
    try contradiction.
  cbn [findBelow] in Hin. apply In_findKids in Hin.
  destruct Hin as [k [x [Hn [[-> _] | H]]]].
  - now exists (0 + k)%nat, [].
  - rewrite Forall_forall in IH.
    destruct (IH x (nth_error_In _ _ Hn) _ _ H) as [k' [q ->]].
    exists (0 + k)%nat, (k' :: q). now rewrite <- app_assoc.
Qed.


Lemma In_findBelow_child (t : string) (a : list (string * string)) (c : list Node)
      (here : path) (k : nat) (x : Node) :
  nth_error c k = Some x ->
  (In (here ++ [k]) (findBelow sel here (Element t a c)) <-> sel x = true) /\
  (forall k' q,
      In (here ++ k :: k' :: q) (findBelow sel here (Element t a c)) <->
      In (here ++ k :: k' :: q) (findBelow sel (here ++ [k]) x)).
Proof.
  intros Hn. cbn [findBelow]. split; [|intros k' q]; rewrite In_findKids; cbn [Nat.add].
  - split.
    + intros [k2 [x2 [Hn2 [[Heq Hs] | H]]]].
      * apply app_inv_head in Heq. injection Heq as <-. congruence.
      * apply findBelow_shape in H. destruct H as [k3 [q3 Heq]].
        rewrite <- app_assoc in Heq. apply app_inv_head in Heq. discriminate.
    + intros Hs. exists k, x. split; [exact Hn|left; now split].
  - split.
    + intros [k2 [x2 [Hn2 [[Heq Hs] | H]]]].
      * apply app_inv_head in Heq. discriminate.
      * destruct (findBelow_shape _ _ _ H) as [k3 [q3 Heq]].
        rewrite <- app_assoc in Heq. apply app_inv_head in Heq.
        injection Heq as -> _ _.
        rewrite Hn in Hn2. now injection Hn2 as <-.
    + intros H. exists k, x. split; [exact Hn|now right].
Qed.

End Removal.

Lemma detachKids_is_purge (set : list path) (here : path) (c : list Node) :
  forall j : nat,
    Forall (fun x => forall here',
                (forall k q, In (here' ++ k :: q) set <->
                             In (here' ++ k :: q) (findBelow selector here' x)) ->
                detachBelow set here' x = purge x) c ->
    (forall k x,
        nth_error c k = Some x ->
        (In (here ++ [j + k]) set <-> selector x = true) /\
        (forall k' q,
            In (here ++ (j + k) :: k' :: q) set <->
            In (here ++ (j + k) :: k' :: q) (findBelow selector (here ++ [j + k]) x))) ->
    detachKids set (detachBelow set) here j c = purgeWith purge c.
Proof.
  induction c as [|x r IH]; intros j HP Hset; [reflexivity|].
  cbn [detachKids purgeWith].
  inversion HP as [|? ? Hx Hr]; subst.
  destruct (Hset 0%nat x eq_refl) as [Hsel Hbelow].
  rewrite Nat.add_0_r in Hsel, Hbelow.
  assert (Hrest : detachKids set (detachBelow set) here (S j) r = purgeWith purge r).
  { apply IH; [exact Hr|].
    intros k y Hn. replace (S j + k)%nat with (j + S k)%nat by lia.
    now apply (Hset (S k) y). }
  destruct (selector x) eqn:Es.
  - assert (E : inSet (here ++ [j]) set = true)
      by (apply inSet_In, Hsel; reflexivity).
    now rewrite E.
  - assert (E : inSet (here ++ [j]) set = false).
    { destruct (inSet (here ++ [j]) set) eqn:E'; [|reflexivity].
      apply inSet_In, Hsel in E'. discriminate. }
    rewrite E, Hrest. f_equal. apply Hx.
    intros k q. rewrite <- app_assoc. apply Hbelow.
Qed.

(** Taking the nodes of [set] out below [n] is [purge n] when [set] holds,
    below [n], the nodes that the selector matches. *)
Lemma detachBelow_is_purge (set : list path) (n : Node) :
  forall here : path,
    (forall k q, In (here ++ k :: q) set <->
                 In (here ++ k :: q) (findBelow selector here n)) ->
    detachBelow set here n = purge n.
Proof.
  induction n as [t a c IH | d | d] using Node_ind'; intros here Hset;
    try reflexivity.
  cbn [detachBelow purge]. f_equal.
  apply detachKids_is_purge; [exact IH|].
  intros k x Hn. cbn [Nat.add].
  destruct (In_findBelow_child selector t a c here k x Hn) as [H1 H2].
  split.
  - rewrite <- H1. apply (Hset k []).
  - intros k' q. rewrite <- H2. apply (Hset k (k' :: q)).
Qed.

Lemma detachRoots_is_purge (set : list path) (roots : list Node) :
  forall i : nat,
    (forall k x,
        nth_error roots k = Some x ->
        forall k' q,
          In ((i + k) :: k' :: q)%nat set <->
          In ((i + k) :: k' :: q)%nat (findBelow selector [(i + k)%nat] x)) ->
    detachRoots set i roots = map purge roots.
Proof.
  induction roots as [|x r IH]; intros i Hset; [reflexivity|].
  cbn [detachRoots map]. f_equal.
  - apply detachBelow_is_purge. intros k q.
    specialize (Hset 0%nat x eq_refl k q). now rewrite Nat.add_0_r in Hset.
  - apply IH. intros k y Hn k' q.
    replace (S i + k)%nat with (i + S k)%nat by lia.
    now apply (Hset (S k) y).
Qed.

Lemma In_roots (p : path) (n : nat) :
  In p (map (fun i => [i]) (seq 0 n)) <-> exists i, (i < n)%nat /\ p = [i].
Proof.
  rewrite in_map_iff. split.
  - intros [i [<- Hin]]. apply in_seq in Hin. exists i. split; [lia|reflexivity].
  - intros [i [Hlt ->]]. exists i. split; [reflexivity|]. apply in_seq. lia.
Qed.

(** The set that [remove] works on holds, below the roots, the nodes that
    the selector matches. *)
Lemma removed_set (l : list Node) (i : nat) (x : Node) (k : nat) (q : path) :
  nth_error l i = Some x ->
  In (i :: k :: q)
     (matched (jq_addBack selector l (jq_find selector l (jq l)))) <->
  In (i :: k :: q) (findBelow selector [i] x).
Proof.
  intros Hn.
  unfold jq_addBack, jq_add, jq_find, jq_filter, jq_end, jq. cbn [matched].
  rewrite In_uniqueSort, in_app_iff, In_uniqueSort, in_flat_map, filter_In.
  split.
  - intros [[p0 [Hp0 Hin]] | [Hroot _]].
    + apply In_roots in Hp0. destruct Hp0 as [i0 [_ ->]].
      cbn [nodeAtIn] in Hin.
      destruct (nth_error l i0) as [x0|] eqn:E; [|contradiction].
      destruct (findBelow_shape _ _ _ _ Hin) as [k' [q' Heq]].
      injection Heq as <- _ _.
      rewrite Hn in E. now injection E as <-.
    + apply In_roots in Hroot. destruct Hroot as [i0 [_ Heq]]. discriminate.
  - intros Hin. left. exists [i]. split.
    + apply In_roots. exists i. split; [|reflexivity].
      apply nth_error_Some. congruence.
    + cbn [nodeAtIn]. now rewrite Hn.
Qed.

Lemma toArray_roots (forest pre : list Node) :
  flat_map (fun p => match nodeAtIn (pre ++ forest) p with
                     | Some n => [n]
                     | None => []
                     end)
           (map (fun i => [i]) (seq (List.length pre) (List.length forest)))
  = forest.
Proof.
  revert pre. induction forest as [|x r IH]; intros pre; [reflexivity|].
  cbn [List.length seq map flat_map nodeAtIn].
  rewrite nth_error_app2 by lia. rewrite Nat.sub_diag. cbn [nth_error app].
  f_equal.
  specialize (IH (pre ++ [x])).
  rewrite <- app_assoc, length_app in IH. cbn [app List.length] in IH.
  now rewrite Nat.add_1_r in IH.
Qed.

Lemma detachRoots_length (set : list path) (roots : list Node) :
  forall i, List.length (detachRoots set i roots) = List.length roots.
Proof.
  induction roots as [|x r IH]; intros i; [reflexivity|].
  cbn [detachRoots List.length]. now rewrite IH.
Qed.

(** What the chain computes: every root comes back, whatever it is, without
    the styles and links below it which aren't from TemplateStyles. *)
Lemma filterRenderedDomElements_is_map_purge (domElements : list Node) :
  filterRenderedDomElements domElements = map purge domElements.
Proof.
  unfold filterRenderedDomElements.
  set (q2 := jq_addBack selector domElements (jq_find selector domElements (jq domElements))).
  assert (Hend : jq_end (jq_end q2) = jq domElements) by reflexivity.
  cbv zeta. rewrite Hend.
  unfold jq_remove, jq_toArray, jq. cbn [matched].
  rewrite <- (detachRoots_length (matched q2) domElements 0).
  pose proof (toArray_roots (detachRoots (matched q2) 0 domElements) []) as Harr.
  cbn [app List.length] in Harr. rewrite Harr. clear Harr.
  apply detachRoots_is_purge.
  intros k x Hn k' q. cbn [Nat.add].
  now apply removed_set.
Qed.

Lemma selector_purge (n : Node) : selector (purge n) = selector n.
Proof. now destruct n. Qed.

Lemma cleanNode_unfold (n : Node) :
  cleanNode n = negb (selector n) && forallb cleanNode (childNodes n).
Proof. now destruct n. Qed.

(** Below a purged node nothing matches the selector. *)
Lemma purge_clean_below (n : Node) :
  forallb cleanNode (childNodes (purge n)) = true.
Proof.
  induction n as [t a c IH | d | d] using Node_ind'; try reflexivity.
  cbn [purge childNodes].
  induction c as [|x r IHc]; [reflexivity|].
  inversion IH as [|? ? Hx Hr]; subst.
  cbn [purgeWith].
  destruct (selector x) eqn:E; [now apply IHc|].
  cbn [forallb].
  rewrite cleanNode_unfold, selector_purge, E, Hx.
  now apply IHc.
Qed.

Lemma purgeAll_clean (l : list Node) : forallb cleanNode (purgeAll l) = true.
Proof.
  unfold purgeAll.
  induction l as [|x r IH]; [reflexivity|].
  cbn [purgeWith].
  destruct (selector x) eqn:E; [exact IH|].
  cbn [forallb].
  now rewrite cleanNode_unfold, selector_purge, E, purge_clean_below, IH.
Qed.

(** A tree in which nothing matches the selector is left as it is. *)
Lemma purge_clean_id (n : Node) : cleanNode n = true -> purge n = n.
Proof.
  induction n as [t a c IH | d | d] using Node_ind'; try reflexivity.
  rewrite cleanNode_unfold. cbn [childNodes purge].
  intros H. apply andb_true_iff in H as [_ H]. f_equal.
  induction c as [|x r IHc]; [reflexivity|].
  inversion IH as [|? ? Hx Hr]; subst.
  cbn [forallb] in H. apply andb_true_iff in H as [H1 H2].
  cbn [purgeWith].
  assert (E : selector x = false).
  { rewrite cleanNode_unfold in H1. apply andb_true_iff in H1 as [H1 _].
    now apply negb_true_iff. }
  rewrite E, (Hx H1). f_equal. now apply IHc.
Qed.

(** C7.  [filterRenderedDomElements] takes out the styles and links which
    aren't from TemplateStyles below the roots and leaves those that are;
    the roots themselves all come back, so that the result is free of such
    styles and links only when no root is one.  The top-level [<style>]
    without a marker is returned, where the comment of the method asks for
    its removal. *)
Theorem filterRenderedDomElements_keeps_every_root :
  (forall domElements : list Node,
      filterRenderedDomElements domElements = map purge domElements) /\
  (forall domElements : list Node,
      forallb cleanNode (filterRenderedDomElements domElements) =
      forallb (fun n => negb (selector n)) domElements) /\
  (forall domElements : list Node, forallb cleanNode (purgeAll domElements) = true) /\
  filterRenderedDomElements
    [Element "style" [] [Text "x"];
     Element "style" [("data-mw-deduplicate", "TemplateStyles:r1")] [Text "y"];
     Element "div" [] [Element "style" [] [Text "z"]]]
  = [Element "style" [] [Text "x"];
     Element "style" [("data-mw-deduplicate", "TemplateStyles:r1")] [Text "y"];
     Element "div" [] []] /\
  purgeAll
    [Element "style" [] [Text "x"];
     Element "style" [("data-mw-deduplicate", "TemplateStyles:r1")] [Text "y"];
     Element "div" [] [Element "style" [] [Text "z"]]]
  = [Element "style" [("data-mw-deduplicate", "TemplateStyles:r1")] [Text "y"];
     Element "div" [] []].
Proof.
  split; [exact filterRenderedDomElements_is_map_purge|].
  split; [|split; [exact purgeAll_clean|split; reflexivity]].
  intros l. rewrite filterRenderedDomElements_is_map_purge.
  induction l as [|x r IH]; [reflexivity|].
  cbn [map forallb].
  now rewrite cleanNode_unfold, selector_purge, purge_clean_below, andb_true_r, IH.
Qed.

(** ** Instances on the sample host *)

(** On a top-level element whose [data-mw] is not JSON, [filterRendering]
    throws: the element is not kept, there is no output. *)
Lemma filterRendering_throws_on_malformed_dataMw :
  filterRendering Sample.whitespaceClass Sample.stripParsoidFallbackIds
    [Element "div" [("data-mw", "{")] [Text "A"]]
  = Throw SyntaxError.
Proof. reflexivity. Qed.

(** A response that reports success, with a fragment whose [data-mw] is
    not JSON: the deferred is neither resolved nor rejected, and a
    [SyntaxError] leaves the callback. *)
Lemma success_response_leaves_deferred_pending :
  generateContents (Some Sample.model) None
  = Ok (mkCall (mkRequest "{{Foo}}{{bar}}" true 0) InFlight Pending) /\
  reportsSuccess
    (successResponse ("<div data-mw=" ++ Json.quoted "{" ++ "></div>")) = true /\
  deliver Sample.whitespaceClass Sample.stripParsoidFallbackIds Sample.parseHTML
          (Some Sample.model)
          (mkCall (mkRequest "{{Foo}}{{bar}}" true 0) InFlight Pending)
          (NetDone (successResponse ("<div data-mw=" ++ Json.quoted "{" ++ "></div>")))
  = (mkCall (mkRequest "{{Foo}}{{bar}}" true 0) Settled Pending, Some SyntaxError).
Proof. repeat split. Qed.

(** The steps as the specification states them keep an element whose
    [data-mw] is not JSON; [filterRendering] throws on it. *)
Lemma filterRendering_throws_where_the_steps_keep :
  filterRendering Sample.whitespaceClass Sample.stripParsoidFallbackIds
    [Element "el"
       [("data-mw", ("{" ++ Json.quoted "autoGenerated" ++ ":true}")%string)]
       [Text "A"];
     Element "el" [("data-mw", "{")] [Text "B"]]
  = Throw SyntaxError /\
  statedPipeline Sample.whitespaceClass Sample.stripParsoidFallbackIds
    [Element "el"
       [("data-mw", ("{" ++ Json.quoted "autoGenerated" ++ ":true}")%string)]
       [Text "A"];
     Element "el" [("data-mw", "{")] [Text "B"]]
  = [Element "el" [("data-mw", "{")] [Text "B"]].
Proof. split; reflexivity. Qed.

Lemma filterRendering_steps_in_order_witness :
  filterRendering Sample.whitespaceClass Sample.stripParsoidFallbackIds
    [Text " ";
     Element "OL"
       [("data-mw", ("{" ++ Json.quoted "autoGenerated" ++ ":true}")%string)] [];
     Text " ";
     Element "P" [] [Text "X"];
     Text " "]
  = Ok [Text "X"].
Proof.
  apply (proj2 (proj2 (proj2 (filterRendering_steps_in_order
                                Sample.whitespaceClass
                                Sample.stripParsoidFallbackIds)))
               (Text "X")); reflexivity.
Defined.

Lemma filterRendering_unwraps_single_paragraph_witness :
  filterRendering Sample.whitespaceClass Sample.stripParsoidFallbackIds
    [Text " "; Element "P" [] [Text "X"]; Text " "]
  = Ok [Text "X"].
Proof.
  apply (proj1 (proj2 (filterRendering_unwraps_single_paragraph
                         Sample.whitespaceClass Sample.stripParsoidFallbackIds))
               "P"%string (Text "X")); [now left|reflexivity|reflexivity].
Defined.

Lemma filterRendering_total_on_readable_dataMw_witness :
  filterRendering Sample.whitespaceClass Sample.stripParsoidFallbackIds
    [Element "div" [("data-mw", ("{" ++ Json.quoted "autoGenerated" ++ ":1}")%string)] [];
     Element "div" [("data-mw", "null")] [Text "kept"];
     Text " "]
  = Ok [Element "div" [("data-mw", "null")] [Text "kept"]].
Proof.
  apply (proj1 (filterRendering_total_on_readable_dataMw
                  Sample.whitespaceClass Sample.stripParsoidFallbackIds
                  [Element "div"
                     [("data-mw", ("{" ++ Json.quoted "autoGenerated" ++ ":1}")%string)] [];
                   Element "div" [("data-mw", "null")] [Text "kept"];
                   Text " "])).
  reflexivity.
Defined.

Lemma sample_resolvable :
  resolvable Sample.Title Sample.newFromText (getPartsList Sample.model).
Proof.
  intros part page Hin Hpage.
  cbn [getPartsList Sample.model] in Hin.
  destruct Hin as [<-|[<-|[<-|[]]]]; cbn in Hpage; try discriminate.
  injection Hpage as <-. discriminate.
Defined.

Lemma sample_namedTitles :
  namedTitles Sample.Title Sample.newFromText Sample.getRelativeText
              Sample.templateNamespace (getPartsList Sample.model).
Proof.
  intros part page title Hin Hpage Htitle.
  cbn [getPartsList Sample.model] in Hin.
  destruct Hin as [<-|[<-|[<-|[]]]]; cbn in Hpage; try discriminate.
  injection Hpage as <-. cbv in Htitle. injection Htitle as <-. discriminate.
Defined.

Lemma getDescription_joins_entries_witness :
  getDescription Sample.Title Sample.newFromText Sample.getRelativeText
                 Sample.templateNamespace Sample.commaSeparator Sample.model
  = Ok "Foo, bar"%string.
Proof.
  apply (proj1 (getDescription_joins_entries
                  Sample.Title Sample.newFromText Sample.getRelativeText
                  Sample.getUrl Sample.templateNamespace Sample.commaSeparator)
               Sample.model sample_resolvable).
Defined.

(** A [templatePage] that [mw.Title.newFromText] rejects: the part has no
    resolvable page, and [getDescription] throws where the name [bar]
    would be shown. *)
Lemma getDescription_throws_on_rejected_templatePage :
  Sample.newFromText "a|b" = None /\
  getDescription Sample.Title Sample.newFromText Sample.getRelativeText
                 Sample.templateNamespace Sample.commaSeparator
                 (mkModel [mkPart (Some "Foo"%string) None;
                           mkPart (Some "a|b"%string) (Some "bar"%string);
                           mkPart None None] "" 0 None)
  = Throw TypeError.
Proof. split; reflexivity. Qed.

(** The same parts: [getDescriptionDom] throws where a text node for [bar]
    would be made. *)
Lemma getDescriptionDom_throws_on_rejected_templatePage :
  Sample.newFromText "a|b" = None /\
  getDescriptionDom Sample.Title Sample.newFromText Sample.getRelativeText
                    Sample.getUrl Sample.templateNamespace Sample.commaSeparator
                    (mkModel [mkPart (Some "Foo"%string) None;
                              mkPart (Some "a|b"%string) (Some "bar"%string);
                              mkPart None None] "" 0 None)
  = Throw TypeError.
Proof. split; reflexivity. Qed.

(** A single part that has no resolvable page and no name: neither
    description is empty, both throw. *)
Lemma descriptions_throw_on_part_without_entry :
  Sample.newFromText "a|b" = None /\
  getDescription Sample.Title Sample.newFromText Sample.getRelativeText
                 Sample.templateNamespace Sample.commaSeparator
                 (mkModel [mkPart (Some "a|b"%string) None] "" 0 None)
  = Throw TypeError /\
  getDescriptionDom Sample.Title Sample.newFromText Sample.getRelativeText
                    Sample.getUrl Sample.templateNamespace Sample.commaSeparator
                    (mkModel [mkPart (Some "a|b"%string) None] "" 0 None)
  = Throw TypeError.
Proof. repeat split. Qed.

Lemma getDescriptionDom_links_entries_witness :
  getDescriptionDom Sample.Title Sample.newFromText Sample.getRelativeText
                    Sample.getUrl Sample.templateNamespace Sample.commaSeparator
                    Sample.model
  = Ok (Element "span" []
          [Element "a" [("href", "/wiki/Foo"); ("target", "_blank")] [Text "Foo"];
           Text ", ";
           Text "bar"]).
Proof.
  apply (proj1 (getDescriptionDom_links_entries
                  Sample.Title Sample.newFromText Sample.getRelativeText
                  Sample.getUrl Sample.templateNamespace Sample.commaSeparator)
               Sample.model sample_resolvable).
Defined.

Lemma descriptions_of_no_entries_witness :
  getDescription Sample.Title Sample.newFromText Sample.getRelativeText
                 Sample.templateNamespace Sample.commaSeparator
                 (mkModel [mkPart None None; mkPart (Some ""%string) None] "" 0 None)
  = Ok ""%string /\
  getDescriptionDom Sample.Title Sample.newFromText Sample.getRelativeText
                    Sample.getUrl Sample.templateNamespace Sample.commaSeparator
                    (mkModel [mkPart None None; mkPart (Some ""%string) None] "" 0 None)
  = Ok (Element "span" [] []).
Proof.
  apply (proj1 (descriptions_of_no_entries
                  Sample.Title Sample.newFromText Sample.getRelativeText
                  Sample.getUrl Sample.templateNamespace Sample.commaSeparator)
               (mkModel [mkPart None None; mkPart (Some ""%string) None] "" 0 None)).
  intros part Hin. cbn [getPartsList] in Hin.
  destruct Hin as [<-|[<-|[]]]; split; reflexivity.
Defined.

Lemma generateContents_outcome_witness :
  deliverAll Sample.whitespaceClass Sample.stripParsoidFallbackIds Sample.parseHTML
             (Some Sample.model)
             (mkCall (mkRequest "{{Foo}}{{bar}}" true 0) InFlight Pending)
             [NetDone (successResponse "<p>Hi</p>"); NetFail]
  = mkCall (mkRequest "{{Foo}}{{bar}}" true 0) Settled (Resolved [Text "Hi"]).
Proof.
  apply (proj1 (generateContents_outcome
                  Sample.whitespaceClass Sample.stripParsoidFallbackIds
                  Sample.parseHTML (Some Sample.model) None
                  (mkCall (mkRequest "{{Foo}}{{bar}}" true 0) InFlight Pending)
                  eq_refl)
               (successResponse "<p>Hi</p>") [NetFail]).
Defined.

Lemma abort_never_resolves_witness :
  deliverAll Sample.whitespaceClass Sample.stripParsoidFallbackIds Sample.parseHTML
             (Some Sample.model)
             (mkCall (mkRequest "{{Foo}}{{bar}}" true 0) InFlight Pending)
             ([] ++ Abort :: [NetDone (successResponse "<p>Hi</p>")])
  = mkCall (mkRequest "{{Foo}}{{bar}}" true 0) Settled Rejected.
Proof.
  apply (proj1 (proj2 (abort_never_resolves
                         Sample.whitespaceClass Sample.stripParsoidFallbackIds
                         Sample.parseHTML (Some Sample.model) None
                         (mkCall (mkRequest "{{Foo}}{{bar}}" true 0) InFlight Pending)
                         [] [NetDone (successResponse "<p>Hi</p>")]
                         eq_refl))).
Defined.

(** * Further properties *)

(** ** filterRendering: what the trimming leaves *)

Lemma dropWhile_split {A : Type} (f : A -> bool) (l : list A) :
  exists pre, l = pre ++ dropWhile f l /\ forallb f pre = true.
Proof.
  induction l as [|a r [pre [Heq Hpre]]]; [now exists []|].
  cbn [dropWhile]. destruct (f a) eqn:E.
  - exists (a :: pre). cbn [app forallb]. rewrite E, Hpre. split; [|reflexivity].
    now rewrite <- Heq.
  - now exists [].
Qed.

Lemma dropWhile_head {A : Type} (f : A -> bool) (l : list A) (a : A) :
  hd_error (dropWhile f l) = Some a -> f a = false.
Proof.
  induction l as [|b r IH]; [discriminate|].
  cbn [dropWhile]. destruct (f b) eqn:E; [exact IH|].
  intros H. injection H as <-. exact E.
Qed.

Lemma forallb_rev {A : Type} (f : A -> bool) (l : list A) :
  forallb f (rev l) = forallb f l.
Proof.
  induction l as [|a r IH]; [reflexivity|].
  cbn [rev forallb]. rewrite forallb_app, IH. cbn [forallb].
  now rewrite andb_true_r, andb_comm.
Qed.

Lemma lastNode_rev (l : list Node) : lastNode l = hd_error (rev l).
Proof.
  destruct l as [|a r] using rev_ind; [reflexivity|].
  now rewrite lastNode_snoc, rev_app_distr.
Qed.

Section TrimFacts.

Variable whitespaceClass : ascii -> bool.
Variable stripParsoidFallbackIds :
  string -> list (string * string) -> list Node -> list (string * string) * list Node.

Local Abbreviation FR := (filterRendering whitespaceClass stripParsoidFallbackIds).
Local Abbreviation wsText := (whitespaceText whitespaceClass).
Local Abbreviation isWS := (isWhitespaceNode whitespaceClass).

Lemma isWhitespaceNode_opt (o : option Node) :
  isWS o = match o with Some n => wsText n | None => false end.
Proof.
  destruct o as [n|]; [apply isWhitespaceNode_spec|reflexivity].
Qed.

(** What is trimmed off [l] is whitespace text at its two ends, and what
    is left neither starts nor ends with whitespace text. *)
Lemma trimWhitespace_shape (l : list Node) :
  exists pre post,
    l = pre ++ trimWhitespace whitespaceClass l ++ post /\
    forallb wsText pre = true /\
    forallb wsText post = true /\
    isWS (hd_error (trimWhitespace whitespaceClass l)) = false /\
    isWS (lastNode (trimWhitespace whitespaceClass l)) = false.
Proof.
  unfold trimWhitespace.
  destruct (dropWhile_split wsText l) as [pre [Hl Hpre]].
  set (m := dropWhile wsText l) in *.
  destruct (dropWhile_split wsText (rev m)) as [post' [Hm Hpost]].
  set (rest' := dropWhile wsText (rev m)) in *.
  assert (Hm' : m = rev rest' ++ rev post').
  { rewrite <- rev_app_distr, <- Hm. now rewrite rev_involutive. }
  exists pre, (rev post').
  split; [now rewrite <- Hm'|].
  split; [exact Hpre|].
  split; [now rewrite forallb_rev|].
  split.
  - rewrite isWhitespaceNode_opt.
    destruct (hd_error (rev rest')) as [a|] eqn:E; [|reflexivity].
    apply (dropWhile_head wsText l a). fold m. rewrite Hm'.
    destruct (rev rest'); [discriminate|exact E].
  - rewrite lastNode_rev, rev_involutive, isWhitespaceNode_opt.
    destruct (hd_error rest') as [a|] eqn:E; [|reflexivity].
    now apply (dropWhile_head wsText (rev m) a).
Qed.

(** X1.  Whenever [filterRendering] returns, what it took off the cleaned
    nodes is whitespace text at the two ends, nothing in between; what is
    left neither starts nor ends with whitespace text, and the result is
    that run, or the children of its single paragraph. *)
Theorem filterRendering_trims_only_the_ends (nodes out : list Node) :
  FR nodes = Ok out ->
  exists kept pre rest post,
    dropAutoGenerated nodes = Ok kept /\
    map (stripNode stripParsoidFallbackIds) kept = pre ++ rest ++ post /\
    forallb wsText pre = true /\
    forallb wsText post = true /\
    isWS (hd_error rest) = false /\
    isWS (lastNode rest) = false /\
    out = unwrapParagraph rest.
Proof.
  intros H. rewrite filterRendering_is_pipeline in H. unfold pipeline in H.
  destruct (dropAutoGenerated nodes) as [kept|e]; [|discriminate].
  cbn [bind] in H. injection H as <-.
  unfold stripFallbackIds.
  rewrite <- (map_ext _ _ (stripNode_cleaned stripParsoidFallbackIds) kept).
  destruct (trimWhitespace_shape (map (stripNode stripParsoidFallbackIds) kept))
    as [pre [post [Heq [Hpre [Hpost [Hhd Hlast]]]]]].
  exists kept, pre,
    (trimWhitespace whitespaceClass (map (stripNode stripParsoidFallbackIds) kept)),
    post.
  repeat split; assumption.
Qed.

Lemma dropWhile_all {A : Type} (f : A -> bool) (l : list A) :
  forallb f l = true -> dropWhile f l = [].
Proof.
  induction l as [|a r IH]; [reflexivity|].
  cbn [forallb dropWhile]. intros H. apply andb_true_iff in H as [Ha Hr].
  rewrite Ha. now apply IH.
Qed.

Lemma whitespaceText_is_text (n : Node) :
  wsText n = true -> exists data, n = Text data.
Proof.
  destruct n as [t a c | d | d]; try discriminate. intros _. now exists d.
Qed.

Lemma blank_rendering (nodes : list Node) :
  (forall n, In n nodes ->
             wsText n = true \/
             (readableDataMw n = true /\ flaggedAutoGenerated n = true)) ->
  FR nodes = Ok [].
Proof.
  intros Hall.
  rewrite filterRendering_is_pipeline. unfold pipeline.
  assert (Hkept : exists kept,
             dropAutoGenerated nodes = Ok kept /\ forallb wsText kept = true).
  { induction nodes as [|n r IH]; [now exists []|].
    destruct IH as [kept [Hk Hws]]; [intros m Hm; apply Hall; now right|].
    cbn [dropAutoGenerated]. rewrite Hk.
    destruct (Hall n (or_introl eq_refl)) as [Hn | [Hr Hf]].
    - destruct (whitespaceText_is_text n Hn) as [data ->].
      exists (Text data :: kept). split; [reflexivity|].
      cbn [forallb]. now rewrite Hn, Hws.
    - rewrite Hr, Hf. now exists kept. }
  destruct Hkept as [kept [Hk Hws]]. rewrite Hk. cbn [bind].
  assert (Hstrip : stripFallbackIds stripParsoidFallbackIds kept = kept).
  { unfold stripFallbackIds. clear Hk.
    induction kept as [|n r IH]; [reflexivity|].
    cbn [forallb] in Hws. apply andb_true_iff in Hws as [Hn Hr].
    destruct (whitespaceText_is_text n Hn) as [data ->].
    cbn [map stripNode]. now rewrite (IH Hr). }
  rewrite Hstrip. unfold trimWhitespace.
  now rewrite (dropWhile_all wsText kept Hws).
Qed.

(** X2.  A rendering made only of whitespace text and of elements flagged
    as auto-generated filters to the empty list. *)
Theorem filterRendering_of_blank_rendering (nodes : list Node) :
  (forall n, In n nodes ->
             wsText n = true \/
             (readableDataMw n = true /\ flaggedAutoGenerated n = true)) ->
  FR nodes = Ok [].
Proof.
  exact (blank_rendering nodes).
Qed.

(** X3.  A top-level element whose [data-mw] attribute is empty or blank
    makes [filterRendering] throw, whatever the other nodes are. *)
Theorem filterRendering_throws_on_blank_dataMw
        (nodes : list Node) (t : string) (attrs : list (string * string))
        (c : list Node) (text : string) :
  In (Element t attrs c) nodes ->
  lookupAttribute "data-mw" attrs = Some text ->
  forallb Json.is_ws (list_ascii_of_string text) = true ->
  FR nodes = Throw SyntaxError.
Proof.
  intros Hin Hattr Hblank.
  assert (Hparse : Json.parse text = Throw SyntaxError).
  { unfold Json.parse.
    assert (Hlex : Json.lex Json.LIdle (list_ascii_of_string text) = Some []).
    { induction (list_ascii_of_string text) as [|ch r IH]; [reflexivity|].
      cbn [forallb] in Hblank. apply andb_true_iff in Hblank as [Hc Hr].
      cbn [Json.lex Json.lex_step]. unfold Json.lex_idle. rewrite Hc.
      now rewrite (IH Hr). }
    now rewrite Hlex. }
  rewrite filterRendering_is_pipeline. unfold pipeline.
  rewrite dropAutoGenerated_unreadable; [reflexivity|].
  destruct (forallb readableDataMw nodes) eqn:E; [|reflexivity].
  rewrite forallb_forall in E. specialize (E _ Hin).
  cbn [readableDataMw] in E. now rewrite Hattr, Hparse in E.
Qed.

(** X4.  The loop that pops trailing whitespace has stopped after as many
    turns as the array is long: more turns change nothing, and at the end
    the last node is not whitespace text. *)
Theorem trailing_whitespace_loop_terminates (l : list Node) (turns : nat) :
  (List.length l <= turns)%nat ->
  popLoop whitespaceClass turns l = popLoop whitespaceClass (List.length l) l /\
  isWS (lastNode (popLoop whitespaceClass turns l)) = false.
Proof.
  intros Hlen.
  assert (Heq : popLoop whitespaceClass turns l =
                popLoop whitespaceClass (List.length l) l).
  { rewrite popLoop_trims.
    rewrite <- (rev_involutive l) at 1.
    apply popLoop_spec. now rewrite length_rev. }
  split; [exact Heq|].
  rewrite Heq. apply popLoop_done.
Qed.

End TrimFacts.

(** X5.  The single node that is left is unwrapped only if it is an
    element named [p] or [P]: no other name lowers to [p], and a text or
    comment node never passes the test. *)
Theorem unwrap_test_exact (n : Node) :
  String.eqb (toLowerCase (nodeName n)) "p" = true <->
  exists a c, n = Element "p" a c \/ n = Element "P" a c.
Proof.
  rewrite String.eqb_eq. split.
  - destruct n as [t a c | d | d]; cbn [nodeName]; try discriminate.
    destruct t as [|ch [|ch2 r]]; cbn [toLowerCase]; try discriminate.
    intros H. injection H as H. apply lowerChar_p in H.
    exists a, c. destruct H as [-> | ->]; [now left|now right].
  - intros [a [c [-> | ->]]]; reflexivity.
Qed.

(** ** getDescription and getDescriptionDom: errors, text, composition *)

Lemma append_nil_r (s : string) : (s ++ "")%string = s.
Proof.
  induction s as [|c s IH]; [reflexivity|]. simpl. now rewrite IH.
Qed.

(** Joining two lists: one separator between them when neither is
    empty. *)
Lemma concat_app (sep : string) (l1 l2 : list string) :
  String.concat sep (l1 ++ l2) =
  match l1, l2 with
  | [], _ => String.concat sep l2
  | _, [] => String.concat sep l1
  | _, _ => (String.concat sep l1 ++ sep ++ String.concat sep l2)%string
  end.
Proof.
  destruct l1 as [|x r]; [reflexivity|].
  destruct l2 as [|y r2]; [now rewrite app_nil_r|].
  revert x. induction r as [|z r' IH]; intros x; [reflexivity|].
  change (String.concat sep ((x :: z :: r') ++ y :: r2))
    with (x ++ sep ++ String.concat sep ((z :: r') ++ y :: r2))%string.
  rewrite IH.
  change (String.concat sep (x :: z :: r'))
    with (x ++ sep ++ String.concat sep (z :: r'))%string.
  now rewrite !append_assoc.
Qed.

Lemma concat_nonEmpty (sep : string) (l : list string) :
  forallb nonEmpty l = true ->
  nonEmpty (String.concat sep l) = match l with [] => false | _ => true end.
Proof.
  destruct l as [|x [|y r]]; [reflexivity| |];
    cbn [forallb]; intros H; apply andb_true_iff in H as [Hx _].
  - exact Hx.
  - change (String.concat sep (x :: y :: r))
      with (x ++ sep ++ String.concat sep (y :: r))%string.
    now destruct x.
Qed.

Lemma filter_nonEmpty_all (l : list string) :
  forallb nonEmpty (filter nonEmpty l) = true.
Proof.
  induction l as [|x r IH]; [reflexivity|].
  cbn [filter]. destruct (nonEmpty x) eqn:E; [|exact IH].
  cbn [forallb]. now rewrite E, IH.
Qed.

Section DescriptionMore.

Variable Title : Type.
Variable newFromText : string -> option Title.
Variable getRelativeText : Title -> Z -> string.
Variable getUrl : Title -> string.
Variable templateNamespace : Z.
Variable commaSeparator : string.

Local Abbreviation describe :=
  (describePart Title newFromText getRelativeText templateNamespace).
Local Abbreviation describeDom :=
  (describePartDom Title newFromText getRelativeText getUrl templateNamespace).
Local Abbreviation entry :=
  (partEntry Title newFromText getRelativeText templateNamespace).
Local Abbreviation entryDom :=
  (partEntryDom Title newFromText getRelativeText getUrl templateNamespace).
Local Abbreviation GD :=
  (getDescription Title newFromText getRelativeText templateNamespace commaSeparator).
Local Abbreviation GDD :=
  (getDescriptionDom Title newFromText getRelativeText getUrl templateNamespace
                     commaSeparator).
Local Abbreviation resolvable' := (resolvable Title newFromText).
Local Abbreviation namedTitles' :=
  (namedTitles Title newFromText getRelativeText templateNamespace).

Lemma resolvable_maps (parts : list Part) :
  resolvable' parts ->
  (exists descs, mapM describe parts = Ok descs) /\
  (exists mapped, mapM describeDom parts = Ok mapped).
Proof.
  induction parts as [|p r IH]; intros Hres.
  - split; now exists [].
  - destruct (IH (resolvable_cons _ _ _ _ Hres)) as [[descs Hd] [mapped Hm]].
    cbn [mapM]. rewrite Hd, Hm.
    unfold describePart, describePartDom.
    destruct (truthyString (templatePage p)) as [page|] eqn:Epage.
    + destruct (newFromText page) as [title|] eqn:Etitle.
      * split; eexists; reflexivity.
      * exfalso. apply (Hres p page); [now left|assumption|assumption].
    + destruct (truthyString (template p)); split; eexists; reflexivity.
Qed.

Lemma describePart_throws (p : Part) (e : Exception) :
  (describe p = Throw e -> e = TypeError) /\
  (describeDom p = Throw e -> e = TypeError).
Proof.
  unfold describePart, describePartDom.
  destruct (truthyString (templatePage p)) as [page|].
  - destruct (newFromText page); split; intros H; try discriminate;
      now injection H as <-.
  - destruct (truthyString (template p)); split; discriminate.
Qed.

Lemma mapM_describe_throws (parts : list Part) (e : Exception) :
  (mapM describe parts = Throw e -> e = TypeError) /\
  (mapM describeDom parts = Throw e -> e = TypeError).
Proof.
  induction parts as [|p r [IH1 IH2]]; [split; discriminate|].
  cbn [mapM]. split.
  - destruct (describe p) as [s|e'] eqn:E; cbn [bind].
    + destruct (mapM describe r); cbn [bind]; [discriminate|exact IH1].
    + intros H. injection H as <-. exact (proj1 (describePart_throws p e') E).
  - destruct (describeDom p) as [s|e'] eqn:E; cbn [bind].
    + destruct (mapM describeDom r); cbn [bind]; [discriminate|exact IH2].
    + intros H. injection H as <-. exact (proj2 (describePart_throws p e') E).
Qed.

(** X6.  The two descriptions return exactly when every [templatePage] of
    the parts is a title; otherwise both throw, and a [TypeError] is the
    only exception they throw. *)
Theorem descriptions_return_iff_resolvable (model : Model) :
  ((exists s, GD model = Ok s) <-> resolvable' (getPartsList model)) /\
  ((exists n, GDD model = Ok n) <-> resolvable' (getPartsList model)) /\
  (forall e, GD model = Throw e -> e = TypeError) /\
  (forall e, GDD model = Throw e -> e = TypeError).
Proof.
  destruct model as [parts w d h]. cbn [getPartsList].
  assert (Hback : forall part page,
             In part parts -> truthyString (templatePage part) = Some page ->
             newFromText page = None ->
             GD (mkModel parts w d h) = Throw TypeError /\
             GDD (mkModel parts w d h) = Throw TypeError).
  { intros part page Hin Hpage Hnone.
    now apply (describe_unresolvable_throws _ _ _ _ _ _ parts part page). }
  split; [|split; [|split]].
  - split.
    + intros [s Hs] part page Hin Hpage Hnone.
      destruct (Hback part page Hin Hpage Hnone) as [H _]. congruence.
    + intros Hres. destruct (proj1 (resolvable_maps parts Hres)) as [descs Hd].
      unfold getDescription. cbn [getPartsList]. rewrite Hd. eexists; reflexivity.
  - split.
    + intros [n Hn] part page Hin Hpage Hnone.
      destruct (Hback part page Hin Hpage Hnone) as [_ H]. congruence.
    + intros Hres. destruct (proj2 (resolvable_maps parts Hres)) as [mapped Hm].
      unfold getDescriptionDom. cbn [getPartsList]. rewrite Hm. eexists; reflexivity.
  - intros e. unfold getDescription. cbn [getPartsList].
    destruct (mapM describe parts) eqn:E; cbn [bind]; [discriminate|].
    intros H. injection H as <-. exact (proj1 (mapM_describe_throws parts _) E).
  - intros e. unfold getDescriptionDom. cbn [getPartsList].
    destruct (mapM describeDom parts) eqn:E; cbn [bind]; [discriminate|].
    intros H. injection H as <-. exact (proj2 (mapM_describe_throws parts _) E).
Qed.

Lemma text_of_separated (sep : string) (l : list Node) :
  String.concat "" (map descendantText (separated (Text sep) l)) =
  String.concat sep (map descendantText l).
Proof.
  destruct l as [|x r]; [reflexivity|].
  revert x. induction r as [|y r' IH]; intros x; [reflexivity|].
  change (separated (Text sep) (x :: y :: r'))
    with (x :: Text sep :: separated (Text sep) (y :: r')).
  specialize (IH y). rewrite separated_cons in IH |- *.
  cbn [map descendantText] in IH |- *.
  change (String.concat "" (?a :: ?b :: ?c :: ?r))
    with (a ++ "" ++ b ++ "" ++ String.concat "" (c :: r))%string.
  cbn [append]. rewrite IH. reflexivity.
Qed.

Lemma text_of_entries (parts : list Part) :
  namedTitles' parts ->
  map descendantText (flat_map entryDom parts) = flat_map entry parts.
Proof.
  induction parts as [|p r IH]; intros Hnamed; [reflexivity|].
  cbn [flat_map]. rewrite map_app, (IH (namedTitles_cons _ _ _ _ _ _ Hnamed)).
  f_equal. unfold partEntryDom, partEntry.
  destruct (truthyString (templatePage p)) as [page|] eqn:Epage.
  - destruct (newFromText page) as [title|] eqn:Etitle; [|reflexivity].
    assert (Hne : getRelativeText title templateNamespace <> ""%string)
      by (apply (Hnamed p page title); [now left|assumption|assumption]).
    unfold newWindowLink.
    destruct (getRelativeText title templateNamespace); [congruence|reflexivity].
  - now destruct (truthyString (template p)).
Qed.

(** X7.  The text of the rich description is the plain description: the
    links and text nodes of [getDescriptionDom] spell, separators
    included, what [getDescription] returns. *)
Theorem rich_description_reads_as_plain (model : Model) :
  resolvable' (getPartsList model) ->
  namedTitles' (getPartsList model) ->
  exists node,
    GDD model = Ok node /\
    GD model = Ok (textContent node).
Proof.
  intros Hres Hnamed.
  destruct (dom_entries Title newFromText getRelativeText getUrl templateNamespace _ Hres)
    as [mapped [Hmap Hfilter]].
  destruct (descriptions_are_entries _ _ _ _ _ Hres Hnamed) as [descs [Hd Hf]].
  eexists. split.
  - unfold getDescriptionDom. rewrite Hmap. cbn [bind targetLinksToNewWindow].
    reflexivity.
  - unfold getDescription. rewrite Hd. cbn [bind textContent descendantText].
    rewrite appendFrom_spec. cbn [Nat.eqb app].
    rewrite map_separated. cbn [targetLinks].
    rewrite text_of_separated, Hfilter, (text_of_entries _ Hnamed).
    now rewrite join_concat, Hf.
Qed.

(** X8.  The description of two lists of parts put together is the two
    descriptions with one separator between them, or the one that is not
    empty. *)
Theorem getDescription_of_app (parts1 parts2 : list Part) (w : string) (d : nat)
        (h : option nat) (d1 d2 : string) :
  GD (mkModel parts1 w d h) = Ok d1 ->
  GD (mkModel parts2 w d h) = Ok d2 ->
  GD (mkModel (parts1 ++ parts2) w d h) =
  Ok (if nonEmpty d1
      then if nonEmpty d2 then d1 ++ commaSeparator ++ d2 else d1
      else d2)%string.
Proof.
  unfold getDescription. cbn [getPartsList]. rewrite mapM_app.
  destruct (mapM describe parts1) as [l1|]; [|discriminate].
  destruct (mapM describe parts2) as [l2|]; [|discriminate].
  cbn [bind]. intros H1 H2. injection H1 as <-. injection H2 as <-.
  rewrite filter_app, !join_concat, concat_app.
  rewrite !concat_nonEmpty by apply filter_nonEmpty_all.
  destruct (filter nonEmpty l1) as [|x r]; [reflexivity|].
  destruct (filter nonEmpty l2) as [|y r2]; reflexivity.
Qed.

End DescriptionMore.

(** ** filterRenderedDomElements: a second pass, and what is left alone *)

Lemma purge_idempotent (n : Node) : purge (purge n) = purge n.
Proof.
  induction n as [t a c IH | d | d] using Node_ind'; try reflexivity.
  cbn [purge]. f_equal.
  induction c as [|x r IHc]; [reflexivity|].
  inversion IH as [|? ? Hx Hr]; subst.
  cbn [purgeWith].
  destruct (selector x) eqn:E; [now apply IHc|].
  cbn [purgeWith]. rewrite selector_purge, E, Hx. f_equal. now apply IHc.
Qed.

(** X9.  Filtering what has been filtered changes nothing. *)
Theorem filterRenderedDomElements_idempotent (domElements : list Node) :
  filterRenderedDomElements (filterRenderedDomElements domElements) =
  filterRenderedDomElements domElements.
Proof.
  rewrite !filterRenderedDomElements_is_map_purge, map_map.
  apply map_ext. exact purge_idempotent.
Qed.

Lemma purge_id_iff (n : Node) :
  purge n = n <-> forallb cleanNode (childNodes n) = true.
Proof.
  split.
  - intros H. rewrite <- H. apply purge_clean_below.
  - destruct n as [t a c | d | d]; try reflexivity.
    cbn [childNodes purge]. intros H. f_equal.
    induction c as [|x r IH]; [reflexivity|].
    cbn [forallb] in H. apply andb_true_iff in H as [Hx Hr].
    cbn [purgeWith].
    assert (E : selector x = false).
    { rewrite cleanNode_unfold in Hx. apply andb_true_iff in Hx as [Hx _].
      now apply negb_true_iff. }
    rewrite E, (purge_clean_id x Hx). f_equal. now apply IH.
Qed.

(** X10.  The nodes come back unchanged exactly when no style or link which
    isn't from TemplateStyles lies below one of them: nothing else is ever
    taken out.  Below a node, a link stays when its [rel] has the word
    [mw-deduplicated-inline-style], in any case of the letters, and its
    [href] starts with [mw-data:TemplateStyles:]; a link that misses one of
    the two is taken out. *)
Theorem filterRenderedDomElements_unchanged_iff :
  (forall domElements : list Node,
      filterRenderedDomElements domElements = domElements <->
      forallb (fun n => forallb cleanNode (childNodes n)) domElements = true) /\
  filterRenderedDomElements
    [Element "DIV" []
       [Element "LINK" [("rel", "mw-deduplicated-inline-style");
                        ("href", "mw-data:TemplateStyles:r1")] [];
        Element "LINK" [("rel", "MW-Deduplicated-Inline-Style");
                        ("href", "mw-data:TemplateStyles:r1")] [];
        Element "LINK" [("rel", "stylesheet mw-deduplicated-inline-style");
                        ("href", "mw-data:TemplateStyles:r2")] [];
        Element "LINK" [("rel", "mw-deduplicated-inline-style");
                        ("href", "http://example.org/x.css")] [];
        Element "LINK" [("rel", "stylesheet");
                        ("href", "mw-data:TemplateStyles:r1")] [];
        Element "LINK" [("rel", "xmw-deduplicated-inline-style");
                        ("href", "mw-data:TemplateStyles:r1")] [];
        Element "LINK" [("href", "mw-data:TemplateStyles:r1")] []]]
  = [Element "DIV" []
       [Element "LINK" [("rel", "mw-deduplicated-inline-style");
                        ("href", "mw-data:TemplateStyles:r1")] [];
        Element "LINK" [("rel", "MW-Deduplicated-Inline-Style");
                        ("href", "mw-data:TemplateStyles:r1")] [];
        Element "LINK" [("rel", "stylesheet mw-deduplicated-inline-style");
                        ("href", "mw-data:TemplateStyles:r2")] []]].
Proof.
  split; [|reflexivity].
  intros domElements.
  rewrite filterRenderedDomElements_is_map_purge.
  induction domElements as [|x r IH]; [split; reflexivity|].
  cbn [map forallb]. rewrite andb_true_iff, <- IH, <- purge_id_iff.
  split.
  - intros H. injection H as H1 H2. now split.
  - intros [H1 H2]. now rewrite H1, H2.
Qed.

(** ** generateContents: requests, settling, exceptions *)

Lemma dropAutoGenerated_throws (nodes : list Node) (e : Exception) :
  dropAutoGenerated nodes = Throw e -> e = SyntaxError.
Proof.
  induction nodes as [|n r IH]; [discriminate|].
  cbn [dropAutoGenerated].
  destruct (readableDataMw n).
  - destruct (dropAutoGenerated r); cbn [bind]; [discriminate|exact IH].
  - intros H. now injection H as <-.
Qed.

Section GenerateContentsMore.

Variable whitespaceClass : ascii -> bool.
Variable stripParsoidFallbackIds :
  string -> list (string * string) -> list Node -> list (string * string) * list Node.
Variable parseHTML : option Json.value -> option nat -> option (list Node).

Local Abbreviation FR := (filterRendering whitespaceClass stripParsoidFallbackIds).
Local Abbreviation deliver' :=
  (deliver whitespaceClass stripParsoidFallbackIds parseHTML).
Local Abbreviation deliverAll' :=
  (deliverAll whitespaceClass stripParsoidFallbackIds parseHTML).

Lemma filterRendering_throws (nodes : list Node) (e : Exception) :
  FR nodes = Throw e -> e = SyntaxError.
Proof.
  rewrite filterRendering_is_pipeline. unfold pipeline.
  destruct (dropAutoGenerated nodes) eqn:E; cbn [bind]; [discriminate|].
  intros H. injection H as <-. now apply (dropAutoGenerated_throws nodes).
Qed.

(** X12.  An exception leaves a delivered event only while the request is
    under way and the event is a response that reports success; it is a
    [SyntaxError], and the deferred is left as it was. *)
Theorem only_SyntaxError_escapes (this : option Model) (c : Call) (e : Event)
        (ex : Exception) :
  snd (deliver' this c e) = Some ex ->
  ex = SyntaxError /\
  xhr c = InFlight /\
  (exists response, e = NetDone response /\ reportsSuccess response = true) /\
  deferred (fst (deliver' this c e)) = deferred c.
Proof.
  unfold deliver.
  destruct (xhr c); [|discriminate].
  destruct e as [response| |]; try discriminate.
  unfold onParseSuccess. rewrite getProp_result.
  destruct (reportsSuccess response) eqn:Es; cbn [negb]; [|discriminate].
  destruct (FR _) as [nodes|ex'] eqn:Ef; cbn [bind snd fst deferred];
    [discriminate|].
  intros H. injection H as <-.
  split; [now apply (filterRendering_throws _ _ Ef)|].
  split; [reflexivity|].
  split; [now exists response|reflexivity].
Qed.

(** X13.  A response that reports success and whose fragment is blank
    (nothing parsed, or only whitespace text and auto-generated elements)
    resolves the deferred with the empty list: it is not a failure. *)
Theorem blank_response_resolves_empty (this : option Model) (c : Call)
        (response : option Json.value) :
  xhr c = InFlight -> deferred c = Pending ->
  reportsSuccess response = true ->
  (forall n, In n (parsedContent parseHTML this response) ->
             whitespaceText whitespaceClass n = true \/
             (readableDataMw n = true /\ flaggedAutoGenerated n = true)) ->
  deliver' this c (NetDone response) = (settled c (Resolved []), None).
Proof.
  intros Hx Hd Hs Hblank.
  rewrite (deliver_response whitespaceClass stripParsoidFallbackIds parseHTML)
    by assumption.
  rewrite Hs.
  now rewrite (blank_rendering whitespaceClass stripParsoidFallbackIds _ Hblank).
Qed.

End GenerateContentsMore.

(** ** Instances of the further properties on the sample host *)

Lemma filterRendering_trims_only_the_ends_witness :
  exists kept pre rest post,
    dropAutoGenerated [Text " "; Element "div" [] [Text "a"]; Text " "] = Ok kept /\
    map (stripNode Sample.stripParsoidFallbackIds) kept = pre ++ rest ++ post /\
    forallb (whitespaceText Sample.whitespaceClass) pre = true /\
    forallb (whitespaceText Sample.whitespaceClass) post = true /\
    isWhitespaceNode Sample.whitespaceClass (hd_error rest) = false /\
    isWhitespaceNode Sample.whitespaceClass (lastNode rest) = false /\
    [Element "div" [] [Text "a"]] = unwrapParagraph rest.
Proof.
  apply (filterRendering_trims_only_the_ends
           Sample.whitespaceClass Sample.stripParsoidFallbackIds
           [Text " "; Element "div" [] [Text "a"]; Text " "]
           [Element "div" [] [Text "a"]]).
  reflexivity.
Defined.

Lemma filterRendering_of_blank_rendering_witness :
  filterRendering Sample.whitespaceClass Sample.stripParsoidFallbackIds
    [Text " ";
     Element "ol"
       [("data-mw", ("{" ++ Json.quoted "autoGenerated" ++ ":true}")%string)] [];
     Text " "]
  = Ok [].
Proof.
  apply (filterRendering_of_blank_rendering
           Sample.whitespaceClass Sample.stripParsoidFallbackIds).
  intros n [<-|[<-|[<-|[]]]];
    [left; reflexivity|right; split; reflexivity|left; reflexivity].
Defined.

Lemma filterRendering_throws_on_blank_dataMw_witness :
  filterRendering Sample.whitespaceClass Sample.stripParsoidFallbackIds
    [Text "a"; Element "div" [("data-mw", " ")] []]
  = Throw SyntaxError.
Proof.
  apply (filterRendering_throws_on_blank_dataMw
           Sample.whitespaceClass Sample.stripParsoidFallbackIds
           [Text "a"; Element "div" [("data-mw", " ")] []]
           "div" [("data-mw", " ")] [] " ").
  - right. left. reflexivity.
  - reflexivity.
  - reflexivity.
Defined.

Lemma trailing_whitespace_loop_terminates_witness :
  popLoop Sample.whitespaceClass 5 [Text "a"; Text " "] =
  popLoop Sample.whitespaceClass 2 [Text "a"; Text " "] /\
  isWhitespaceNode Sample.whitespaceClass
    (lastNode (popLoop Sample.whitespaceClass 5 [Text "a"; Text " "])) = false.
Proof.
  apply (trailing_whitespace_loop_terminates
           Sample.whitespaceClass [Text "a"; Text " "] 5).
  simpl. lia.
Defined.

Lemma rich_description_reads_as_plain_witness :
  exists node,
    getDescriptionDom Sample.Title Sample.newFromText Sample.getRelativeText
                      Sample.getUrl Sample.templateNamespace Sample.commaSeparator
                      Sample.model = Ok node /\
    getDescription Sample.Title Sample.newFromText Sample.getRelativeText
                   Sample.templateNamespace Sample.commaSeparator Sample.model
    = Ok (textContent node).
Proof.
  apply (rich_description_reads_as_plain
           Sample.Title Sample.newFromText Sample.getRelativeText Sample.getUrl
           Sample.templateNamespace Sample.commaSeparator Sample.model
           sample_resolvable sample_namedTitles).
Defined.

Lemma getDescription_of_app_witness :
  getDescription Sample.Title Sample.newFromText Sample.getRelativeText
                 Sample.templateNamespace Sample.commaSeparator
                 (mkModel ([mkPart (Some "Foo"%string) None] ++
                           [mkPart None (Some "bar"%string)]) "" 0 None)
  = Ok "Foo, bar"%string.
Proof.
  apply (getDescription_of_app
           Sample.Title Sample.newFromText Sample.getRelativeText
           Sample.templateNamespace Sample.commaSeparator
           [mkPart (Some "Foo"%string) None] [mkPart None (Some "bar"%string)]
           "" 0 None "Foo" "bar"); reflexivity.
Defined.

Lemma only_SyntaxError_escapes_witness :
  SyntaxError = SyntaxError /\
  InFlight = InFlight /\
  (exists response,
      NetDone (successResponse ("<div data-mw=" ++ Json.quoted "{" ++ "></div>"))
      = NetDone response /\ reportsSuccess response = true) /\
  deferred
    (fst (deliver Sample.whitespaceClass Sample.stripParsoidFallbackIds
                  Sample.parseHTML (Some Sample.model)
                  (mkCall (mkRequest "x" true 0) InFlight Pending)
                  (NetDone (successResponse
                              ("<div data-mw=" ++ Json.quoted "{" ++ "></div>")))))
  = Pending.
Proof.
  apply (only_SyntaxError_escapes
           Sample.whitespaceClass Sample.stripParsoidFallbackIds Sample.parseHTML
           (Some Sample.model)
           (mkCall (mkRequest "x" true 0) InFlight Pending)
           (NetDone (successResponse ("<div data-mw=" ++ Json.quoted "{" ++ "></div>")))
           SyntaxError).
  reflexivity.
Defined.

Lemma blank_response_resolves_empty_witness :
  deliver Sample.whitespaceClass Sample.stripParsoidFallbackIds Sample.parseHTML
          (Some Sample.model)
          (mkCall (mkRequest "x" true 0) InFlight Pending)
          (NetDone (successResponse ""))
  = (mkCall (mkRequest "x" true 0) Settled (Resolved []), None).
Proof.
  apply (blank_response_resolves_empty
           Sample.whitespaceClass Sample.stripParsoidFallbackIds Sample.parseHTML
           (Some Sample.model)
           (mkCall (mkRequest "x" true 0) InFlight Pending)
           (successResponse "")); try reflexivity.
  intros n [].
Defined.

Lemma sample_readOnlyMethods :
  readOnlyMethods Model Sample.obj_getPartsList Sample.obj_getWikitext
                  Sample.obj_getDocument Sample.obj_getHtmlDocument.
Proof. repeat split. Defined.

